(** * Updog backend: the post request handlers

    A shallow embedding of [backend/server/controllers/posts.js] and of the
    routing table [backend/server/routes/index.js], together with the
    properties of the authorization-and-ownership gate, of the post store and
    of the share store that the handlers establish.

    The handlers are [async] functions that talk to three collaborators: the
    token codec, the ORM models ([models.posts], [models.sharedPost]) and the
    express response object.  They are embedded as computations in a small
    state-and-exception monad over a [World] that holds the two tables, the
    work of the other requests that gets interleaved at the suspension points,
    and the chronological trace of what the handler did. *)

From Stdlib Require Import ZArith List Bool.
From stdpp Require Import base decidable option list strings numbers.

Local Open Scope Z_scope.

(** ** JavaScript values

    The values that travel through the handlers are identifiers, text and the
    two "nothing" values.  [JUndefined] is what reading an absent property or
    an absent header yields. *)

Inductive jsval : Type :=
  | JUndefined
  | JNull
  | JNum (n : Z)
  | JStr (s : string).

#[global] Instance jsval_eq_dec : EqDecision jsval.
Proof. solve_decision. Defined.

(** [ToBoolean] is the conversion that [if (x)], [!x] and [x || y] apply. *)
Class ToBoolean (A : Type) := toBoolean : A -> bool.

#[global] Instance jsval_ToBoolean : ToBoolean jsval := fun v =>
  match v with
  | JUndefined | JNull => false
  | JNum n => negb (n =? 0)
  | JStr s => negb (String.eqb s "")
  end.

(** A model instance or [null]: only [null] is falsy. *)
#[global] Instance nullable_ToBoolean {A : Type} : ToBoolean (option A) := fun o =>
  match o with
  | Some _ => true
  | None => false
  end.

(** A row count. *)
#[global] Instance count_ToBoolean : ToBoolean nat := fun n =>
  negb (Nat.eqb n 0).

(** [x == null] holds of [null] and of [undefined] only. *)
Definition loose_eq_null (v : jsval) : bool :=
  match v with
  | JUndefined | JNull => true
  | _ => false
  end.

(** [x === y] on the values above is plain equality. *)
Definition strict_eq (x y : jsval) : bool := bool_decide (x = y).

(** ** Data model *)

Module User.
(** The decoded identity; only [id] is consumed by the handlers. *)
Record t : Type := mk { id : jsval }.
End User.

Module Post.
Record t : Type := mk {
  id : jsval;
  text_content : jsval;
  author : jsval;
  parent : jsval
}.
#[global] Instance eq_dec : EqDecision t.
Proof. solve_decision. Defined.
End Post.

Module Share.
Record t : Type := mk { postId : jsval; userId : jsval }.
#[global] Instance eq_dec : EqDecision t.
Proof. solve_decision. Defined.
End Share.

(** A created model instance is an object, hence truthy. *)
#[global] Instance share_ToBoolean : ToBoolean Share.t := fun _ => true.

(** What the [update] of a model resolves to: an array, whose first element
    is the number of affected rows and whose second element, asked for with
    [returning: true], holds the affected rows.  An array is an object, hence
    truthy whatever it holds. *)
Record UpdateResult : Type := {
  affectedCount : nat;
  affectedRows : list Post.t
}.

#[global] Instance array_ToBoolean : ToBoolean UpdateResult := fun _ => true.

Module Params.
Record t : Type := mk { id : jsval }.
End Params.

Module Body.
Record t : Type := mk { text_content : jsval; parent : jsval }.
End Body.

Module Req.
Record t : Type := mk {
  authorization : jsval;
  params : Params.t;
  body : Body.t
}.
(** [req.get('Authorization')] *)
Definition get_Authorization (req : t) : jsval := authorization req.
End Req.

(** Modelled from the spec: [dto/posts] is not part of the sources at hand.
    The mapper derives the DTO one-to-one from a stored post, so the DTO is
    represented by the row it was derived from. *)
Record PostDto : Type := { dto_of : Post.t }.

Inductive Error : Type :=
  | ERR_HTTP_HEADERS_SENT
  | SequelizeValidationError
  | SequelizeUniqueConstraintError.

(** Response bodies: [{ 'Error message': msg }], a bare string, a post DTO, or
    the caught error itself. *)
Inductive Payload : Type :=
  | ErrorMessage (msg : string)
  | Text (msg : string)
  | DtoBody (dto : PostDto)
  | ErrorBody (e : Error).

(** What a handler does, in the order it does it: the responses it sends and
    the statements it issues against the two stores.  The statements that
    report a number of affected rows are recorded with that number. *)
Inductive Event : Type :=
  | Sent (status : Z) (body : Payload)
  | PostsFindByPk (key : jsval)
  | PostsCreate (text_content author parent : jsval)
  | PostsUpdate (text_content where_id : jsval) (affected : nat)
  | PostsDestroy (where_id : jsval) (affected : nat)
  | SharedPostCreate (postId userId : jsval)
  | SharedPostDestroy (where_postId where_userId : jsval) (affected : nat).

Definition is_sent (e : Event) : bool :=
  match e with Sent _ _ => true | _ => false end.

Definition is_post_store (e : Event) : bool :=
  match e with
  | PostsFindByPk _ | PostsCreate _ _ _ | PostsUpdate _ _ _ | PostsDestroy _ _ => true
  | _ => false
  end.

Definition is_share_store (e : Event) : bool :=
  match e with
  | SharedPostCreate _ _ | SharedPostDestroy _ _ _ => true
  | _ => false
  end.

Definition is_post_write (e : Event) : bool :=
  match e with
  | PostsCreate _ _ _ | PostsUpdate _ _ _ | PostsDestroy _ _ => true
  | _ => false
  end.

(** ** The world *)

Record Tables : Type := {
  posts : list Post.t;
  sharedPost : list Share.t;
  next_id : Z
}.

(** [interleaved] lists what the other requests do to the tables while this
    handler is suspended: its k-th element runs just before the k-th store
    operation of the handler.  An isolated request has none. *)
Record World : Type := {
  db : Tables;
  interleaved : list (Tables -> Tables);
  trace : list Event
}.

(** Storage constraints that the handlers do not decide: whether a
    [(postId, userId)] pair can be stored only once, and whether the columns
    that reference a user reject NULL. *)
Record Schema : Type := {
  unique_shares : bool;
  not_null_refs : bool
}.

(** ** The monad *)

Inductive Result (A : Type) : Type :=
  | Ok (a : A)
  | Throw (e : Error).
Arguments Ok {A} a.
Arguments Throw {A} e.

Definition M (A : Type) : Type := World -> Result A * World.

#[global] Instance M_ret : MRet M := fun A (a : A) w => (Ok a, w).

#[global] Instance M_bind : MBind M := fun A B (k : A -> M B) (c : M A) w =>
  match c w with
  | (Ok a, w') => k a w'
  | (Throw e, w') => (Throw e, w')
  end.

(** [try { body } catch (error) { handler }] *)
Definition try_catch {A : Type} (body : M A) (handler : Error -> M A) : M A :=
  fun w =>
    match body w with
    | (Ok a, w') => (Ok a, w')
    | (Throw e, w') => handler e w'
    end.

Definition emit (e : Event) : M unit := fun w =>
  (Ok tt, {| db := db w; interleaved := interleaved w; trace := trace w ++ [e] |}).

(** The handler is suspended: the next piece of foreign work, if any, runs. *)
Definition await : M unit := fun w =>
  match interleaved w with
  | [] => (Ok tt, w)
  | f :: rest => (Ok tt, {| db := f (db w); interleaved := rest; trace := trace w |})
  end.

Definition query {A : Type} (q : Tables -> Result A * Tables) : M A := fun w =>
  let '(r, t) := q (db w) in
  (r, {| db := t; interleaved := interleaved w; trace := trace w |}).

(** ** The express response

    [res.status(code).send(body)] writes the response; a second call on the
    same response throws, and the client keeps the first one. *)

Definition headersSent (w : World) : bool := existsb is_sent (trace w).

Definition res_status_send (code : Z) (body : Payload) : M unit := fun w =>
  if headersSent w then (Throw ERR_HTTP_HEADERS_SENT, w)
  else emit (Sent code body) w.

Definition console_log (e : Error) : M unit := mret tt.

Fixpoint first_sent (tr : list Event) : option (Z * Payload) :=
  match tr with
  | [] => None
  | Sent code body :: _ => Some (code, body)
  | _ :: rest => first_sent rest
  end.

(** The response the client receives. *)
Definition response (w : World) : option (Z * Payload) := first_sent (trace w).

(** ** The ORM models

    [database/models] is not part of the sources at hand; the handlers use
    [models.posts] and [models.sharedPost] through [findByPk], [create],
    [update] and [destroy].  The post store is a table of rows with an [id]
    column, the share store a join table of [(postId, userId)] pairs.  Each
    operation executes the one statement the handler issues: the source does
    not say what becomes of the shares or of the replies of a deleted post, so
    no cascade from one row to another is part of the model. *)

(** Modelled from the spec: the [where: { id }] clause of the post model. *)
Definition has_id (key : jsval) (p : Post.t) : bool :=
  bool_decide (Post.id p = key).

(** Modelled from the spec: the [where: { postId, userId }] clause of the
    share model. *)
Definition is_share (postId userId : jsval) (s : Share.t) : bool :=
  bool_decide (Share.postId s = postId) && bool_decide (Share.userId s = userId).

(** Modelled from the spec: the row that [findByPk] of the post model
    resolves to; it is [null] for a [null] or [undefined] key and for a key
    that no row has. *)
Definition lookup_post (key : jsval) (rows : list Post.t) : option Post.t :=
  if loose_eq_null key then None else List.find (has_id key) rows.

(** Modelled from the spec: the assignment [SET text_content = text] of the
    post model's [update]; no other column is named in the statement. *)
Definition set_text (text : jsval) (p : Post.t) : Post.t :=
  Post.mk (Post.id p) text (Post.author p) (Post.parent p).

(** Modelled from the spec: the table after [update ... where id = key]. *)
Definition update_rows (text key : jsval) (rows : list Post.t) : list Post.t :=
  List.map (fun p => if has_id key p then set_text text p else p) rows.

(** Modelled from the spec: the table after [destroy where id = key]. *)
Definition delete_rows (key : jsval) (rows : list Post.t) : list Post.t :=
  List.filter (fun p => negb (has_id key p)) rows.

(** Modelled from the spec: the join table after
    [destroy where postId = .. and userId = ..]. *)
Definition delete_shares (postId userId : jsval) (rows : list Share.t) : list Share.t :=
  List.filter (fun s => negb (is_share postId userId s)) rows.

Section Handlers.

(** [Authentication.extractUser]: the token codec, an external collaborator
    that yields an identity lacking [id] for a credential it cannot decode. *)
Variable extractUser : jsval -> User.t.

(** The constraints of the tables, which [database/models] would fix. *)
Variable schema : Schema.

(** Modelled from the spec: [models.posts.findByPk], a read of the post
    store. *)
Definition posts_findByPk (key : jsval) : M (option Post.t) :=
  emit (PostsFindByPk key);;
  await;;
  query (fun t => (Ok (lookup_post key (posts t)), t)).

(** Modelled from the spec: [models.posts.create], which inserts one row with
    a generated [id] and resolves to it, or throws when the author is NULL in
    a table that forbids it. *)
Definition posts_create (text_content author parent : jsval) : M Post.t :=
  emit (PostsCreate text_content author parent);;
  await;;
  query (fun t =>
    if not_null_refs schema && loose_eq_null author
    then (Throw SequelizeValidationError, t)
    else
      let post := Post.mk (JNum (next_id t)) text_content author parent in
      (Ok post, {| posts := posts t ++ [post];
                   sharedPost := sharedPost t;
                   next_id := next_id t + 1 |})).

(** Modelled from the spec: [models.posts.update], which overwrites
    [text_content] in the rows that the [where] clause selects and resolves to
    the array of the number of affected rows and the affected rows. *)
Definition posts_update (text_content where_id : jsval) : M UpdateResult :=
  await;;
  updated ← query (fun t =>
    let rows := update_rows text_content where_id (posts t) in
    (Ok {| affectedCount := length (List.filter (has_id where_id) (posts t));
           affectedRows := List.filter (has_id where_id) rows |},
     {| posts := rows; sharedPost := sharedPost t; next_id := next_id t |}));
  emit (PostsUpdate text_content where_id (affectedCount updated));;
  mret updated.

(** Modelled from the spec: [models.posts.destroy], which deletes the rows
    that the [where] clause selects and resolves to their number. *)
Definition posts_destroy (where_id : jsval) : M nat :=
  await;;
  count ← query (fun t =>
    (Ok (length (List.filter (has_id where_id) (posts t))),
     {| posts := delete_rows where_id (posts t);
        sharedPost := sharedPost t;
        next_id := next_id t |}));
  emit (PostsDestroy where_id count);;
  mret count.

(** Modelled from the spec: [models.sharedPost.create], which inserts the
    pair and resolves to it, or throws when the table forbids the row. *)
Definition sharedPost_create (postId userId : jsval) : M Share.t :=
  emit (SharedPostCreate postId userId);;
  await;;
  query (fun t =>
    if not_null_refs schema && loose_eq_null userId
    then (Throw SequelizeValidationError, t)
    else if unique_shares schema && existsb (is_share postId userId) (sharedPost t)
    then (Throw SequelizeUniqueConstraintError, t)
    else
      let row := Share.mk postId userId in
      (Ok row, {| posts := posts t;
                  sharedPost := sharedPost t ++ [row];
                  next_id := next_id t |})).

(** Modelled from the spec: [models.sharedPost.destroy], which deletes the
    rows of the pair and resolves to their number. *)
Definition sharedPost_destroy (where_postId where_userId : jsval) : M nat :=
  await;;
  count ← query (fun t =>
    (Ok (length (List.filter (is_share where_postId where_userId) (sharedPost t))),
     {| posts := posts t;
        sharedPost := delete_shares where_postId where_userId (sharedPost t);
        next_id := next_id t |}));
  emit (SharedPostDestroy where_postId where_userId count);;
  mret count.

(** Modelled from the spec: [convertToPostDto] of [dto/posts], the one-to-one
    mapper from a stored post to its DTO. *)
Definition convertToPostDto (post : Post.t) : M PostDto :=
  mret {| dto_of := post |}.

(** ** The handlers of [controllers/posts.js] *)

Definition createPost (req : Req.t) : M unit :=
  try_catch
    (let authToken := Req.get_Authorization req in
     let body := Req.body req in
     if negb (toBoolean authToken) then
       res_status_send 400 (ErrorMessage "Auth token not provided")
     else
       let decodedUser := extractUser authToken in
       (if negb (toBoolean (User.id decodedUser)) then
          res_status_send 401 (ErrorMessage "Auth token invalid")
        else mret tt);;
       parent ← posts_findByPk (Body.parent body);
       if toBoolean parent || loose_eq_null (Body.parent body) then
         post ← posts_create (Body.text_content body)
                              (User.id decodedUser)
                              (Body.parent body);
         postDTO ← convertToPostDto post;
         res_status_send 201 (DtoBody postDTO)
       else
         res_status_send 404 (ErrorMessage "Parent with that id does not exist."))
    (fun error =>
       console_log error;;
       res_status_send 500 (ErrorBody error)).

Definition getPostById (req : Req.t) : M unit :=
  try_catch
    (let params := Req.params req in
     post ← posts_findByPk (Params.id params);
     match post with            (* post != null *)
     | Some post =>
         postDTO ← convertToPostDto post;
         res_status_send 200 (DtoBody postDTO)
     | None =>
         res_status_send 404 (Text "ID not found.")
     end)
    (fun error => res_status_send 500 (ErrorBody error)).

Definition modifyPostById (req : Req.t) : M unit :=
  try_catch
    (let authToken := Req.get_Authorization req in
     if negb (toBoolean authToken) then
       res_status_send 400 (ErrorMessage "Auth token not provided")
     else
       let decodedUser := extractUser authToken in
       if negb (toBoolean (User.id decodedUser)) then
         res_status_send 401 (ErrorMessage "Auth token invalid")
       else
         let params := Req.params req in
         let body := Req.body req in
         post ← posts_findByPk (Params.id params);
         match post with
         | None =>                  (* !post *)
             res_status_send 404 (Text "Invalid message ID.")
         | Some post =>
             if strict_eq (Post.author post) (User.id decodedUser) then
               updated ← posts_update (Body.text_content body) (Params.id params);
               if toBoolean updated then
                 res_status_send 200 (Text "The message has been updated.")
               else
                 res_status_send 500 (Text "Failed to update the post.")
             else
               res_status_send 403 (Text "Invalid author ID.")
         end)
    (fun error =>
       console_log error;;
       res_status_send 500 (ErrorBody error)).

Definition deletePostById (req : Req.t) : M unit :=
  try_catch
    (let authToken := Req.get_Authorization req in
     if negb (toBoolean authToken) then
       res_status_send 400 (ErrorMessage "Auth token not provided")
     else
       let decodedUser := extractUser authToken in
       if negb (toBoolean (User.id decodedUser)) then
         res_status_send 401 (ErrorMessage "Auth token invalid")
       else
         let params := Req.params req in
         post ← posts_findByPk (Params.id params);
         match post with
         | None =>                  (* !post *)
             res_status_send 404 (Text "Invalid post ID.")
         | Some post =>
             if strict_eq (Post.author post) (User.id decodedUser) then
               count ← posts_destroy (Params.id params);
               if negb (Nat.eqb count 0) then     (* count !== 0 *)
                 res_status_send 200 (Text "The post has been deleted.")
               else
                 res_status_send 500 (Text "Failed to destroy the post.")
             else
               res_status_send 403 (Text "Invalid author ID.")
         end)
    (fun error => res_status_send 500 (ErrorBody error)).

Definition sharePostById (req : Req.t) : M unit :=
  try_catch
    (let authToken := Req.get_Authorization req in
     let params := Req.params req in
     if negb (toBoolean authToken) then
       res_status_send 400 (ErrorMessage "Auth token not provided")
     else
       let decodedUser := extractUser authToken in
       (if negb (toBoolean (User.id decodedUser)) then
          res_status_send 401 (ErrorMessage "Auth token invalid")
        else mret tt);;
       targetPost ← posts_findByPk (Params.id params);
       match targetPost with
       | Some targetPost =>       (* if (targetPost) *)
           postShared ← sharedPost_create (Post.id targetPost)
                                          (User.id decodedUser);
           if toBoolean postShared then
             res_status_send 201 (Text "Post shared.")
           else
             res_status_send 500 (Text "Failed to share the post.")
       | None =>
           res_status_send 404 (ErrorMessage "Parent with that id does not exist.")
       end)
    (fun error => res_status_send 500 (ErrorBody error)).

Definition unsharePostById (req : Req.t) : M unit :=
  try_catch
    (let authToken := Req.get_Authorization req in
     let params := Req.params req in
     if negb (toBoolean authToken) then
       res_status_send 400 (ErrorMessage "Auth token not provided")
     else
       let decodedUser := extractUser authToken in
       if negb (toBoolean (User.id decodedUser)) then
         res_status_send 401 (ErrorMessage "Auth token invalid")
       else
         count ← sharedPost_destroy (Params.id params) (User.id decodedUser);
         if toBoolean count then
           res_status_send 200 (Text "The post has been unshared.")
         else
           res_status_send 404 (Text "The post was not shared by the user before."))
    (fun error => res_status_send 500 (ErrorBody error)).

(** ** The routes of [routes/index.js] that lead to these handlers *)

Inductive Route : Type :=
  | POST_posts
  | GET_posts_id
  | PUT_posts_id
  | DELETE_posts_id
  | POST_posts_id_share
  | DELETE_posts_id_share.

Definition router (r : Route) : Req.t -> M unit :=
  match r with
  | POST_posts => createPost
  | GET_posts_id => getPostById
  | PUT_posts_id => modifyPostById
  | DELETE_posts_id => deletePostById
  | POST_posts_id_share => sharePostById
  | DELETE_posts_id_share => unsharePostById
  end.

(** The caller of a request, as the token codec decodes the credential. *)
Definition caller (req : Req.t) : jsval :=
  User.id (extractUser (Req.get_Authorization req)).

(** The request passes steps 1 and 2 of the gate: a credential is present and
    it decodes to an identity with a usable [id]. *)
Definition authenticated (req : Req.t) : Prop :=
  toBoolean (Req.get_Authorization req) = true /\ toBoolean (caller req) = true.

End Handlers.

(** ** Serving one request

    Every request gets a response object of its own, on which nothing has been
    sent yet.  [serve] runs a handler on its own; [serve_among] runs it while
    other requests work on the tables. *)

Definition start (t : Tables) (others : list (Tables -> Tables)) : World :=
  {| db := t; interleaved := others; trace := [] |}.

Definition serve_among (others : list (Tables -> Tables))
    (handler : Req.t -> M unit) (req : Req.t) (t : Tables) : World :=
  snd (handler req (start t others)).

Definition serve (handler : Req.t -> M unit) (req : Req.t) (t : Tables) : World :=
  serve_among [] handler req t.

(** [settled] tells whether the promise of the handler was fulfilled; it is
    rejected when the [catch] block itself throws. *)
Definition settled (handler : Req.t -> M unit) (req : Req.t) (t : Tables) : Result unit :=
  fst (handler req (start t [])).

(** Sharing a post and then unsharing it, by the same request data, leaves the
    share store as it was. *)
Definition round_trip (extractUser : jsval -> User.t) (schema : Schema)
    (req : Req.t) (t : Tables) : Prop :=
  sharedPost (db (serve (unsharePostById extractUser) req
                    (db (serve (sharePostById extractUser schema) req t))))
  = sharedPost t.

(** ** Sample data: two users, and one post written by the first of them *)

Module Sample.

Definition codec (token : jsval) : User.t :=
  match token with
  | JStr "token-u1" => User.mk (JNum 1)
  | JStr "token-u2" => User.mk (JNum 2)
  | _ => User.mk JUndefined
  end.

Definition permissive : Schema := {| unique_shares := false; not_null_refs := false |}.
Definition strict : Schema := {| unique_shares := true; not_null_refs := true |}.

Definition hello : Post.t := Post.mk (JNum 1) (JStr "hello") (JNum 1) JNull.

Definition tables : Tables := {| posts := [hello]; sharedPost := []; next_id := 2 |}.

Definition request (token id text parent : jsval) : Req.t :=
  Req.mk token (Params.mk id) (Body.mk text parent).

(** Another request of the author removes the post. *)
Definition concurrent_delete (key : jsval) (t : Tables) : Tables :=
  {| posts := delete_rows key (posts t);
     sharedPost := sharedPost t;
     next_id := next_id t |}.

Definition idle (t : Tables) : Tables := t.

(** The tables after u2 has shared the post of u1. *)
Definition shared_by_u2 : Tables :=
  {| posts := [hello]; sharedPost := [Share.mk (JNum 1) (JNum 2)]; next_id := 2 |}.

(** Requests on [/posts/1] and [/posts/1/share]. *)
Definition u1_on_hello : Req.t := request (JStr "token-u1") (JNum 1) (JStr "edited") JUndefined.
Definition u2_on_hello : Req.t := request (JStr "token-u2") (JNum 1) (JStr "edited") JUndefined.
Definition stranger_on_hello : Req.t := request (JStr "garbage") (JNum 1) JUndefined JUndefined.

(** Requests on [/posts]. *)
Definition u1_posts : Req.t := request (JStr "token-u1") JUndefined (JStr "hi") JNull.
Definition u1_replies_to_nothing : Req.t :=
  request (JStr "token-u1") JUndefined (JStr "re") (JNum 7).
Definition stranger_posts : Req.t := request (JStr "garbage") JUndefined (JStr "spam") JNull.

End Sample.

(** ** The reply invariant

    Every post that names a parent names one that the post store resolves. *)

Definition parent_resolves (rows : list Post.t) (p : Post.t) : bool :=
  loose_eq_null (Post.parent p) || toBoolean (lookup_post (Post.parent p) rows).

Definition parents_resolve (rows : list Post.t) : bool :=
  forallb (parent_resolves rows) rows.

(** ** More sample data: edge cases of the credential, and a reply *)

Module Cases.

(** A codec for which the token of the first registered user decodes to the
    identifier zero. *)
Definition zero_codec (token : jsval) : User.t :=
  match token with
  | JStr "token-u0" => User.mk (JNum 0)
  | _ => User.mk JUndefined
  end.

Definition no_header_on_hello : Req.t :=
  Sample.request JUndefined (JNum 1) (JStr "edited") JUndefined.
Definition empty_header_on_hello : Req.t :=
  Sample.request (JStr "") (JNum 1) (JStr "edited") JUndefined.
Definition u0_on_hello : Req.t :=
  Sample.request (JStr "token-u0") (JNum 1) (JStr "edited") JUndefined.
Definition u1_on_nothing : Req.t :=
  Sample.request (JStr "token-u1") (JNum 7) (JStr "edited") JUndefined.
Definition anyone_reads_new : Req.t :=
  Sample.request JUndefined (JNum 2) JUndefined JUndefined.

(** u2 has replied to the post of u1. *)
Definition reply : Post.t := Post.mk (JNum 2) (JStr "re") (JNum 2) (JNum 1).
Definition with_reply : Tables :=
  {| posts := [Sample.hello; reply]; sharedPost := []; next_id := 3 |}.

End Cases.

(** * Properties *)

(** ** Values and rows *)

Lemma usable_not_null (v : jsval) : toBoolean v = true -> loose_eq_null v = false.
Proof. destruct v; simpl; intros H; try discriminate; reflexivity. Qed.

Lemma find_has_id key rows p :
  List.find (has_id key) rows = Some p -> Post.id p = key /\ In p rows.
Proof.
  intros H. apply List.find_some in H as [Hin Hid].
  unfold has_id in Hid. apply bool_decide_eq_true_1 in Hid. auto.
Qed.

Lemma lookup_post_id key rows p :
  lookup_post key rows = Some p -> Post.id p = key.
Proof.
  unfold lookup_post. destruct (loose_eq_null key); [discriminate|].
  intros H. apply find_has_id in H. tauto.
Qed.

Lemma lookup_post_In key rows p :
  lookup_post key rows = Some p -> In p rows.
Proof.
  unfold lookup_post. destruct (loose_eq_null key); [discriminate|].
  intros H. apply find_has_id in H. tauto.
Qed.

Lemma is_share_spec postId userId s :
  is_share postId userId s = true <-> Share.postId s = postId /\ Share.userId s = userId.
Proof.
  unfold is_share. rewrite andb_true_iff, !bool_decide_eq_true. tauto.
Qed.

Lemma delete_shares_absent postId userId rows :
  existsb (is_share postId userId) rows = false ->
  delete_shares postId userId rows = rows.
Proof.
  induction rows as [|s rows IH]; simpl; [reflexivity|].
  intros H. apply orb_false_iff in H as [Hs Hrows].
  rewrite Hs. simpl. f_equal. auto.
Qed.

Lemma delete_shares_inserted postId userId rows :
  existsb (is_share postId userId) rows = false ->
  delete_shares postId userId (rows ++ [Share.mk postId userId]) = rows.
Proof.
  intros H. unfold delete_shares. rewrite List.filter_app.
  fold (delete_shares postId userId rows). rewrite delete_shares_absent by exact H.
  simpl. unfold is_share. simpl. rewrite !bool_decide_eq_true_2 by reflexivity.
  simpl. apply app_nil_r.
Qed.

Lemma In_delete_shares postId userId rows s :
  In s (delete_shares postId userId rows) <->
  In s rows /\ ~ (Share.postId s = postId /\ Share.userId s = userId).
Proof.
  unfold delete_shares. rewrite List.filter_In, negb_true_iff.
  rewrite <- is_share_spec. destruct (is_share postId userId s); intuition congruence.
Qed.

Lemma no_matching_rows postId userId rows :
  existsb (is_share postId userId) rows = false ->
  List.filter (is_share postId userId) rows = [].
Proof.
  induction rows as [|s rows IH]; simpl; [reflexivity|].
  intros H. apply orb_false_iff in H as [Hs Hrows]. rewrite Hs. auto.
Qed.

(** ** How the store operations and the response run in isolation *)

Section Runs.

Variable schema : Schema.
Variables (t : Tables) (tr : list Event).

Lemma run_findByPk key :
  posts_findByPk key {| db := t; interleaved := []; trace := tr |} =
  (Ok (lookup_post key (posts t)),
   {| db := t; interleaved := []; trace := tr ++ [PostsFindByPk key] |}).
Proof. destruct t; reflexivity. Qed.

Lemma run_create text author parent :
  loose_eq_null author = false ->
  posts_create schema text author parent {| db := t; interleaved := []; trace := tr |} =
  (Ok (Post.mk (JNum (next_id t)) text author parent),
   {| db := {| posts := posts t ++ [Post.mk (JNum (next_id t)) text author parent];
               sharedPost := sharedPost t; next_id := next_id t + 1 |};
      interleaved := [];
      trace := tr ++ [PostsCreate text author parent] |}).
Proof.
  intros H. unfold posts_create, mbind, M_bind, emit, await, query. simpl.
  rewrite H, andb_false_r. reflexivity.
Qed.

Lemma run_update text key :
  posts_update text key {| db := t; interleaved := []; trace := tr |} =
  (Ok {| affectedCount := length (List.filter (has_id key) (posts t));
         affectedRows := List.filter (has_id key) (update_rows text key (posts t)) |},
   {| db := {| posts := update_rows text key (posts t);
               sharedPost := sharedPost t; next_id := next_id t |};
      interleaved := [];
      trace := tr ++ [PostsUpdate text key
                        (length (List.filter (has_id key) (posts t)))] |}).
Proof. reflexivity. Qed.

Lemma run_destroy key :
  posts_destroy key {| db := t; interleaved := []; trace := tr |} =
  (Ok (length (List.filter (has_id key) (posts t))),
   {| db := {| posts := delete_rows key (posts t);
               sharedPost := sharedPost t; next_id := next_id t |};
      interleaved := [];
      trace := tr ++ [PostsDestroy key
                        (length (List.filter (has_id key) (posts t)))] |}).
Proof. reflexivity. Qed.

Lemma run_share postId userId :
  loose_eq_null userId = false ->
  unique_shares schema && existsb (is_share postId userId) (sharedPost t) = false ->
  sharedPost_create schema postId userId {| db := t; interleaved := []; trace := tr |} =
  (Ok (Share.mk postId userId),
   {| db := {| posts := posts t;
               sharedPost := sharedPost t ++ [Share.mk postId userId];
               next_id := next_id t |};
      interleaved := [];
      trace := tr ++ [SharedPostCreate postId userId] |}).
Proof.
  intros H1 H2. unfold sharedPost_create, mbind, M_bind, emit, await, query. simpl.
  rewrite H1, andb_false_r, H2. reflexivity.
Qed.

Lemma run_share_duplicate postId userId :
  loose_eq_null userId = false ->
  unique_shares schema && existsb (is_share postId userId) (sharedPost t) = true ->
  sharedPost_create schema postId userId {| db := t; interleaved := []; trace := tr |} =
  (Throw SequelizeUniqueConstraintError,
   {| db := t; interleaved := []; trace := tr ++ [SharedPostCreate postId userId] |}).
Proof.
  intros H1 H2. unfold sharedPost_create, mbind, M_bind, emit, await, query. simpl.
  rewrite H1, andb_false_r, H2. destruct t; reflexivity.
Qed.

Lemma run_unshare postId userId :
  sharedPost_destroy postId userId {| db := t; interleaved := []; trace := tr |} =
  (Ok (length (List.filter (is_share postId userId) (sharedPost t))),
   {| db := {| posts := posts t;
               sharedPost := delete_shares postId userId (sharedPost t);
               next_id := next_id t |};
      interleaved := [];
      trace := tr ++ [SharedPostDestroy postId userId
                        (length (List.filter (is_share postId userId) (sharedPost t)))] |}).
Proof. reflexivity. Qed.

Lemma run_send code body :
  existsb is_sent tr = false ->
  res_status_send code body {| db := t; interleaved := []; trace := tr |} =
  (Ok tt, {| db := t; interleaved := []; trace := tr ++ [Sent code body] |}).
Proof.
  intros H. unfold res_status_send, headersSent. simpl. rewrite H. reflexivity.
Qed.

Lemma run_send_again code body :
  existsb is_sent tr = true ->
  res_status_send code body {| db := t; interleaved := []; trace := tr |} =
  (Throw ERR_HTTP_HEADERS_SENT, {| db := t; interleaved := []; trace := tr |}).
Proof.
  intros H. unfold res_status_send, headersSent. simpl. rewrite H. reflexivity.
Qed.

End Runs.

(** ** What each handler does on each of its paths *)

Ltac enter handler :=
  unfold serve, serve_among, start, handler, try_catch, convertToPostDto,
    console_log, mbind, M_bind, mret, M_ret;
  cbv beta iota.

Ltac pass_gate Htok Hid :=
  unfold caller in *; rewrite Htok, Hid; cbn [negb]; cbv beta iota.

Section Paths.

Variable extractUser : jsval -> User.t.
Variable schema : Schema.
Variables (req : Req.t) (t : Tables).

Hypothesis Hauth : authenticated extractUser req.

Lemma modify_forbidden P :
  lookup_post (Params.id (Req.params req)) (posts t) = Some P ->
  caller extractUser req <> Post.author P ->
  serve (modifyPostById extractUser) req t =
  {| db := t; interleaved := [];
     trace := [PostsFindByPk (Params.id (Req.params req));
               Sent 403 (Text "Invalid author ID.")] |}.
Proof.
  destruct Hauth as [Htok Hid]. intros Hfind Hne.
  enter modifyPostById. pass_gate Htok Hid.
  rewrite run_findByPk, Hfind. cbv beta iota.
  unfold strict_eq. rewrite bool_decide_eq_false_2 by congruence.
  rewrite run_send by reflexivity. reflexivity.
Qed.

Lemma delete_forbidden P :
  lookup_post (Params.id (Req.params req)) (posts t) = Some P ->
  caller extractUser req <> Post.author P ->
  serve (deletePostById extractUser) req t =
  {| db := t; interleaved := [];
     trace := [PostsFindByPk (Params.id (Req.params req));
               Sent 403 (Text "Invalid author ID.")] |}.
Proof.
  destruct Hauth as [Htok Hid]. intros Hfind Hne.
  enter deletePostById. pass_gate Htok Hid.
  rewrite run_findByPk, Hfind. cbv beta iota.
  unfold strict_eq. rewrite bool_decide_eq_false_2 by congruence.
  rewrite run_send by reflexivity. reflexivity.
Qed.

Lemma create_parent_missing :
  loose_eq_null (Body.parent (Req.body req)) = false ->
  lookup_post (Body.parent (Req.body req)) (posts t) = None ->
  serve (createPost extractUser schema) req t =
  {| db := t; interleaved := [];
     trace := [PostsFindByPk (Body.parent (Req.body req));
               Sent 404 (ErrorMessage "Parent with that id does not exist.")] |}.
Proof.
  destruct Hauth as [Htok Hid]. intros Hp Hfind.
  enter createPost. pass_gate Htok Hid.
  rewrite run_findByPk, Hfind, Hp. cbn [toBoolean nullable_ToBoolean orb]. cbv beta iota.
  rewrite run_send by reflexivity. reflexivity.
Qed.

Lemma create_inserts :
  loose_eq_null (Body.parent (Req.body req)) = true
  \/ (exists P, lookup_post (Body.parent (Req.body req)) (posts t) = Some P) ->
  forall created,
    created = Post.mk (JNum (next_id t)) (Body.text_content (Req.body req))
                      (caller extractUser req) (Body.parent (Req.body req)) ->
    serve (createPost extractUser schema) req t =
    {| db := {| posts := posts t ++ [created];
                sharedPost := sharedPost t;
                next_id := next_id t + 1 |};
       interleaved := [];
       trace := [PostsFindByPk (Body.parent (Req.body req));
                 PostsCreate (Body.text_content (Req.body req))
                             (caller extractUser req) (Body.parent (Req.body req));
                 Sent 201 (DtoBody {| dto_of := created |})] |}.
Proof.
  destruct Hauth as [Htok Hid]. intros Hp created ->.
  pose proof (usable_not_null _ Hid) as Hnn.
  enter createPost. pass_gate Htok Hid.
  rewrite run_findByPk. cbv beta iota.
  match goal with |- context [toBoolean ?o || ?b] =>
    assert (toBoolean o || b = true) as ->
      by (destruct Hp as [-> | [P ->]]; [apply orb_true_r | reflexivity])
  end.
  rewrite run_create by exact Hnn. cbv beta iota.
  rewrite run_send by reflexivity. reflexivity.
Qed.

Lemma share_target_missing :
  lookup_post (Params.id (Req.params req)) (posts t) = None ->
  serve (sharePostById extractUser schema) req t =
  {| db := t; interleaved := [];
     trace := [PostsFindByPk (Params.id (Req.params req));
               Sent 404 (ErrorMessage "Parent with that id does not exist.")] |}.
Proof.
  destruct Hauth as [Htok Hid]. intros Hfind.
  enter sharePostById. pass_gate Htok Hid.
  rewrite run_findByPk, Hfind. cbv beta iota.
  rewrite run_send by reflexivity. reflexivity.
Qed.

Lemma share_inserts P :
  lookup_post (Params.id (Req.params req)) (posts t) = Some P ->
  unique_shares schema
  && existsb (is_share (Post.id P) (caller extractUser req)) (sharedPost t) = false ->
  serve (sharePostById extractUser schema) req t =
  {| db := {| posts := posts t;
              sharedPost := sharedPost t ++ [Share.mk (Post.id P) (caller extractUser req)];
              next_id := next_id t |};
     interleaved := [];
     trace := [PostsFindByPk (Params.id (Req.params req));
               SharedPostCreate (Post.id P) (caller extractUser req);
               Sent 201 (Text "Post shared.")] |}.
Proof.
  destruct Hauth as [Htok Hid]. intros Hfind Hfree.
  pose proof (usable_not_null _ Hid) as Hnn.
  enter sharePostById. pass_gate Htok Hid.
  rewrite run_findByPk, Hfind. cbv beta iota.
  rewrite run_share by assumption. cbn [toBoolean share_ToBoolean]. cbv beta iota.
  rewrite run_send by reflexivity. reflexivity.
Qed.

Lemma share_refused P :
  lookup_post (Params.id (Req.params req)) (posts t) = Some P ->
  unique_shares schema
  && existsb (is_share (Post.id P) (caller extractUser req)) (sharedPost t) = true ->
  serve (sharePostById extractUser schema) req t =
  {| db := t; interleaved := [];
     trace := [PostsFindByPk (Params.id (Req.params req));
               SharedPostCreate (Post.id P) (caller extractUser req);
               Sent 500 (ErrorBody SequelizeUniqueConstraintError)] |}.
Proof.
  destruct Hauth as [Htok Hid]. intros Hfind Hdup.
  pose proof (usable_not_null _ Hid) as Hnn.
  enter sharePostById. pass_gate Htok Hid.
  rewrite run_findByPk, Hfind. cbv beta iota.
  rewrite run_share_duplicate by assumption. cbv beta iota.
  rewrite run_send by reflexivity. reflexivity.
Qed.

Lemma unshare_runs :
  let count :=
    length (List.filter (is_share (Params.id (Req.params req)) (caller extractUser req))
                        (sharedPost t)) in
  serve (unsharePostById extractUser) req t =
  {| db := {| posts := posts t;
              sharedPost := delete_shares (Params.id (Req.params req))
                                          (caller extractUser req) (sharedPost t);
              next_id := next_id t |};
     interleaved := [];
     trace := [SharedPostDestroy (Params.id (Req.params req)) (caller extractUser req) count;
               if toBoolean count
               then Sent 200 (Text "The post has been unshared.")
               else Sent 404 (Text "The post was not shared by the user before.")] |}.
Proof.
  destruct Hauth as [Htok Hid]. intros count. subst count.
  enter unsharePostById. pass_gate Htok Hid.
  rewrite run_unshare. cbv beta iota.
  match goal with |- context [toBoolean ?n] => destruct (toBoolean n) end;
    rewrite run_send by reflexivity; reflexivity.
Qed.

End Paths.

(** ** Running a handler on all of its paths *)

Lemma run_create_any (schema : Schema) t tr text author parent :
  posts_create schema text author parent {| db := t; interleaved := []; trace := tr |} =
  if not_null_refs schema && loose_eq_null author
  then (Throw SequelizeValidationError,
        {| db := t; interleaved := []; trace := tr ++ [PostsCreate text author parent] |})
  else (Ok (Post.mk (JNum (next_id t)) text author parent),
        {| db := {| posts := posts t ++ [Post.mk (JNum (next_id t)) text author parent];
                    sharedPost := sharedPost t; next_id := next_id t + 1 |};
           interleaved := [];
           trace := tr ++ [PostsCreate text author parent] |}).
Proof.
  unfold posts_create, mbind, M_bind, emit, await, query. simpl.
  destruct (not_null_refs schema && loose_eq_null author); [destruct t|]; reflexivity.
Qed.

Lemma run_share_any (schema : Schema) t tr postId userId :
  sharedPost_create schema postId userId {| db := t; interleaved := []; trace := tr |} =
  if not_null_refs schema && loose_eq_null userId
  then (Throw SequelizeValidationError,
        {| db := t; interleaved := []; trace := tr ++ [SharedPostCreate postId userId] |})
  else if unique_shares schema && existsb (is_share postId userId) (sharedPost t)
  then (Throw SequelizeUniqueConstraintError,
        {| db := t; interleaved := []; trace := tr ++ [SharedPostCreate postId userId] |})
  else (Ok (Share.mk postId userId),
        {| db := {| posts := posts t;
                    sharedPost := sharedPost t ++ [Share.mk postId userId];
                    next_id := next_id t |};
           interleaved := [];
           trace := tr ++ [SharedPostCreate postId userId] |}).
Proof.
  unfold sharedPost_create, mbind, M_bind, emit, await, query. simpl.
  destruct (not_null_refs schema && loose_eq_null userId); [destruct t; reflexivity|].
  destruct (unique_shares schema && existsb (is_share postId userId) (sharedPost t));
    [destruct t|]; reflexivity.
Qed.

(** [exec E] runs the handler in the equation [E : serve _ _ _ = w] to the end
    of each of its paths. *)
Ltac exec_step E :=
  cbv beta iota in E;
  first
    [ rewrite run_findByPk in E
    | rewrite run_update in E
    | rewrite run_destroy in E
    | rewrite run_unshare in E
    | rewrite run_create_any in E
    | rewrite run_share_any in E
    | rewrite run_send in E by reflexivity
    | rewrite run_send_again in E by reflexivity
    | match type of E with
      | context [if ?b then _ else _] => destruct b eqn:?
      | context [match ?o with Some _ => _ | None => _ end] => destruct o eqn:?
      end ].

Ltac exec E := repeat exec_step E; cbv beta iota in E.

Ltac run E handler :=
  unfold serve, serve_among, start, handler, try_catch, convertToPostDto,
    console_log, mbind, M_bind, mret, M_ret in E;
  exec E; simpl in E; inversion E; subst; clear E.

(** ** Rows of the post store *)


Lemma In_delete_rows key rows p :
  In p (delete_rows key rows) <-> In p rows /\ Post.id p <> key.
Proof.
  unfold delete_rows. rewrite List.filter_In, negb_true_iff.
  unfold has_id. rewrite bool_decide_eq_false. tauto.
Qed.



Section Frames.

Variable extractUser : jsval -> User.t.
Variable schema : Schema.



End Frames.

(** ** The credential gate *)

Section Gate.

Variable extractUser : jsval -> User.t.
Variable schema : Schema.
Variables (req : Req.t) (t : Tables).

Hypothesis Htok : toBoolean (Req.get_Authorization req) = true.
Hypothesis Hid : toBoolean (caller extractUser req) = false.

(** Three handlers stop at an identity without a usable [id] ... *)
Lemma modify_stops_at_invalid_credential :
  serve (modifyPostById extractUser) req t =
  {| db := t; interleaved := [];
     trace := [Sent 401 (ErrorMessage "Auth token invalid")] |}.
Proof.
  enter modifyPostById. pass_gate Htok Hid.
  rewrite run_send by reflexivity. reflexivity.
Qed.

Lemma delete_stops_at_invalid_credential :
  serve (deletePostById extractUser) req t =
  {| db := t; interleaved := [];
     trace := [Sent 401 (ErrorMessage "Auth token invalid")] |}.
Proof.
  enter deletePostById. pass_gate Htok Hid.
  rewrite run_send by reflexivity. reflexivity.
Qed.

Lemma unshare_stops_at_invalid_credential :
  serve (unsharePostById extractUser) req t =
  {| db := t; interleaved := [];
     trace := [Sent 401 (ErrorMessage "Auth token invalid")] |}.
Proof.
  enter unsharePostById. pass_gate Htok Hid.
  rewrite run_send by reflexivity. reflexivity.
Qed.

(** ... and two go on to the post store after they have answered 401. *)
Lemma create_goes_on_after_invalid_credential :
  exists rest,
    trace (serve (createPost extractUser schema) req t) =
    Sent 401 (ErrorMessage "Auth token invalid")
      :: PostsFindByPk (Body.parent (Req.body req)) :: rest.
Proof.
  destruct (serve (createPost extractUser schema) req t) as [d i tr] eqn:E.
  unfold caller in Hid.
  unfold serve, serve_among, start, createPost in E. rewrite Htok, Hid in E.
  cbn [negb] in E. run E @try_catch; cbn [trace app]; eauto.
Qed.

Lemma share_goes_on_after_invalid_credential :
  exists rest,
    trace (serve (sharePostById extractUser schema) req t) =
    Sent 401 (ErrorMessage "Auth token invalid")
      :: PostsFindByPk (Params.id (Req.params req)) :: rest.
Proof.
  destruct (serve (sharePostById extractUser schema) req t) as [d i tr] eqn:E.
  unfold caller in Hid.
  unfold serve, serve_among, start, sharePostById in E. rewrite Htok, Hid in E.
  cbn [negb] in E. run E @try_catch; cbn [trace app]; eauto.
Qed.

Lemma create_inserts_for_invalid_credential :
  not_null_refs schema = false ->
  loose_eq_null (Body.parent (Req.body req)) = true ->
  posts (db (serve (createPost extractUser schema) req t)) =
  posts t ++ [Post.mk (JNum (next_id t)) (Body.text_content (Req.body req))
                      (caller extractUser req) (Body.parent (Req.body req))].
Proof.
  intros Hnull Hparent.
  destruct (serve (createPost extractUser schema) req t) as [d i tr] eqn:E.
  unfold caller in *.
  unfold serve, serve_among, start, createPost in E.
  rewrite Htok, Hid in E. cbn [negb] in E.
  run E @try_catch; cbn [db posts]; try reflexivity; exfalso.
  all: match goal with
       | H : not_null_refs schema && _ = true |- _ =>
           rewrite Hnull in H; discriminate H
       | H : _ || loose_eq_null _ = false |- _ =>
           rewrite Hparent, orb_true_r in H; discriminate H
       end.
Qed.

End Gate.

(** ** The result of the update *)

Lemma array_is_truthy (updated : UpdateResult) : toBoolean updated = true.
Proof. reflexivity. Qed.

(** C4 does not hold of [modifyPostById].  Whatever the other requests do in
    between: when the update that the handler has issued reports zero affected
    rows, the answer is 200 "The message has been updated." and not an
    internal failure.  The handler tests the array that the update resolves
    to, which is truthy, and not the count in it, so its 500 branch is never
    taken. *)
Theorem modify_ignores_affected_count (extractUser : jsval -> User.t)
    (others : list (Tables -> Tables)) (req : Req.t) (t : Tables) (text key : jsval) :
  In (PostsUpdate text key 0)
     (trace (serve_among others (modifyPostById extractUser) req t)) ->
  response (serve_among others (modifyPostById extractUser) req t)
  = Some (200, Text "The message has been updated.").
Proof.
  destruct (serve_among others (modifyPostById extractUser) req t) as [d i tr] eqn:E.
  unfold serve_among, start, modifyPostById, try_catch, console_log, posts_findByPk,
    posts_update, res_status_send, headersSent, emit, await, query,
    mbind, M_bind, mret, M_ret in E.
  repeat (cbn -[lookup_post strict_eq update_rows has_id toBoolean] in E;
          match type of E with
          | context [if ?b then _ else _] => destruct b eqn:?
          | context [match ?o with Some _ => _ | None => _ end] => destruct o eqn:?
          | context [match ?l with [] => _ | _ :: _ => _ end] => destruct l
          end).
  all: cbn -[lookup_post strict_eq update_rows has_id toBoolean] in E.
  all: inversion E; subst; clear E; cbn [trace response first_sent].
  all: try match goal with
           | H : toBoolean _ = false |- _ => rewrite array_is_truthy in H; discriminate H
           end.
  all: intros H; simpl in H.
  all: repeat (destruct H as [H | H]; [try discriminate H|]); try (destruct H); reflexivity.
Qed.

(** * The specification, statement by statement *)

Section Claims.

Variable extractUser : jsval -> User.t.
Variable schema : Schema.

(** C1 does not hold of [createPost] and [sharePostById].  A request whose
    credential is present and decodes to an identity without a usable [id] is
    answered 401 by both, but neither stops there: each goes on to read the
    post store, and [createPost], where the body names no parent and the table
    accepts a NULL author, inserts a row on behalf of the invalid identity. *)
Theorem invalid_credential_reaches_the_stores (req : Req.t) (t : Tables) :
  toBoolean (Req.get_Authorization req) = true ->
  toBoolean (caller extractUser req) = false ->
  response (serve (createPost extractUser schema) req t)
    = Some (401, ErrorMessage "Auth token invalid")
  /\ (exists rest,
        trace (serve (createPost extractUser schema) req t) =
        Sent 401 (ErrorMessage "Auth token invalid")
          :: PostsFindByPk (Body.parent (Req.body req)) :: rest)
  /\ response (serve (sharePostById extractUser schema) req t)
    = Some (401, ErrorMessage "Auth token invalid")
  /\ (exists rest,
        trace (serve (sharePostById extractUser schema) req t) =
        Sent 401 (ErrorMessage "Auth token invalid")
          :: PostsFindByPk (Params.id (Req.params req)) :: rest)
  /\ (not_null_refs schema = false ->
      loose_eq_null (Body.parent (Req.body req)) = true ->
      posts (db (serve (createPost extractUser schema) req t)) =
      posts t ++ [Post.mk (JNum (next_id t)) (Body.text_content (Req.body req))
                          (caller extractUser req) (Body.parent (Req.body req))]).
Proof.
  intros Htok Hid.
  destruct (create_goes_on_after_invalid_credential extractUser schema req t Htok Hid)
    as [rest Hcreate].
  destruct (share_goes_on_after_invalid_credential extractUser schema req t Htok Hid)
    as [rest' Hshare].
  unfold response. rewrite Hcreate, Hshare. cbn [first_sent].
  split; [reflexivity|]. split; [eauto|]. split; [reflexivity|]. split; [eauto|].
  apply create_inserts_for_invalid_credential; assumption.
Qed.

(** C2.  For every existing post P and every authenticated caller V other than
    the author of P, [modifyPostById] and [deletePostById] answer 403 Forbidden
    and leave P unchanged: the handler looks the post up and answers, it
    issues no update and no delete, and the tables are what they were. *)
Theorem non_author_is_forbidden (req : Req.t) (t : Tables) (P : Post.t) :
  authenticated extractUser req ->
  lookup_post (Params.id (Req.params req)) (posts t) = Some P ->
  caller extractUser req <> Post.author P ->
  forall handler,
    handler = modifyPostById extractUser \/ handler = deletePostById extractUser ->
    response (serve handler req t) = Some (403, Text "Invalid author ID.")
    /\ db (serve handler req t) = t
    /\ In P (posts (db (serve handler req t)))
    /\ existsb is_post_write (trace (serve handler req t)) = false.
Proof.
  intros Hauth Hfind Hne handler [-> | ->].
  - rewrite (modify_forbidden extractUser req t Hauth P Hfind Hne).
    cbn. eauto using lookup_post_In.
  - rewrite (delete_forbidden extractUser req t Hauth P Hfind Hne).
    cbn. eauto using lookup_post_In.
Qed.

(** C3.  For a create request that has passed the credential gate: when the
    body names a non-null [parent] that resolves to no post, [createPost]
    answers 404 NotFound and inserts no row; when [parent] is null or absent,
    or resolves to a post, exactly one row is inserted, whose [author] is the
    decoded identity and whose [parent] is the one given, and the answer is
    201 with the DTO of that row. *)
Theorem createPost_checks_parent (req : Req.t) (t : Tables) :
  authenticated extractUser req ->
  let parent := Body.parent (Req.body req) in
  let w := serve (createPost extractUser schema) req t in
  (loose_eq_null parent = false ->
   lookup_post parent (posts t) = None ->
   response w = Some (404, ErrorMessage "Parent with that id does not exist.")
   /\ db w = t
   /\ existsb is_post_write (trace w) = false)
  /\
  (loose_eq_null parent = true \/ (exists P, lookup_post parent (posts t) = Some P) ->
   exists created,
     posts (db w) = posts t ++ [created]
     /\ Post.author created = caller extractUser req
     /\ Post.parent created = parent
     /\ Post.text_content created = Body.text_content (Req.body req)
     /\ response w = Some (201, DtoBody {| dto_of := created |})).
Proof.
  intros Hauth parent w. subst parent w. split.
  - intros Hp Hfind.
    rewrite (create_parent_missing extractUser schema req t Hauth Hp Hfind).
    cbn. auto.
  - intros Hp.
    rewrite (create_inserts extractUser schema req t Hauth Hp _ eq_refl).
    cbn. eexists. repeat split.
Qed.

(** C5, amended.  When the caller V holds no share of the post yet, sharing it
    as V and then unsharing it as V returns the share store to exactly the
    state before the share, whether or not the post exists and whatever the
    storage constraints are. *)
Theorem share_then_unshare_round_trip (req : Req.t) (t : Tables) :
  authenticated extractUser req ->
  existsb (is_share (Params.id (Req.params req)) (caller extractUser req))
          (sharedPost t) = false ->
  round_trip extractUser schema req t.
Proof.
  intros Hauth Hfresh. unfold round_trip.
  rewrite (unshare_runs extractUser req _ Hauth). cbn [db sharedPost].
  destruct (lookup_post (Params.id (Req.params req)) (posts t)) as [P|] eqn:Hfind.
  - pose proof (lookup_post_id _ _ _ Hfind) as HP.
    rewrite (share_inserts extractUser schema req t Hauth P Hfind)
      by (rewrite HP, Hfresh; apply andb_false_r).
    cbn [db sharedPost]. rewrite HP. apply delete_shares_inserted. exact Hfresh.
  - rewrite (share_target_missing extractUser schema req t Hauth Hfind).
    cbn [db]. apply delete_shares_absent. exact Hfresh.
Qed.

(** C6.  Given a valid credential, [unsharePostById] deletes exactly the share
    rows whose pair is (path id, caller id) and leaves the post store alone;
    when there is no such row it answers 404 with the "not shared before"
    message, not a post-not-found one; and it never consults the post store. *)
Theorem unsharePostById_deletes_the_pair (req : Req.t) (t : Tables) :
  authenticated extractUser req ->
  let key := Params.id (Req.params req) in
  let V := caller extractUser req in
  let w := serve (unsharePostById extractUser) req t in
  (forall s, In s (sharedPost (db w)) <->
             In s (sharedPost t) /\ ~ (Share.postId s = key /\ Share.userId s = V))
  /\ sharedPost (db w) = List.filter (fun s => negb (is_share key V s)) (sharedPost t)
  /\ posts (db w) = posts t
  /\ (existsb (is_share key V) (sharedPost t) = false ->
      response w = Some (404, Text "The post was not shared by the user before."))
  /\ existsb is_post_store (trace w) = false.
Proof.
  intros Hauth key V w. subst key V w.
  rewrite (unshare_runs extractUser req t Hauth). cbn [db sharedPost posts trace].
  split; [intros s; apply In_delete_shares|].
  split; [reflexivity|]. split; [reflexivity|]. split.
  - intros Habsent. rewrite (no_matching_rows _ _ _ Habsent). reflexivity.
  - cbn. match goal with |- context [if ?b then _ else _] => destruct b end; reflexivity.
Qed.

(** C7.  [sharePostById] applies no ownership check.  For every authenticated
    caller: when the target post does not exist the answer is 404 NotFound and
    nothing is inserted; when it exists, whoever its author is (the caller
    included), and the share store accepts the row, exactly one row
    [(postId, callerId)] is inserted and the answer is 201. *)
Theorem sharePostById_asks_no_ownership (req : Req.t) (t : Tables) :
  authenticated extractUser req ->
  let key := Params.id (Req.params req) in
  let V := caller extractUser req in
  let w := serve (sharePostById extractUser schema) req t in
  (lookup_post key (posts t) = None ->
   response w = Some (404, ErrorMessage "Parent with that id does not exist.")
   /\ db w = t
   /\ existsb is_share_store (trace w) = false)
  /\
  (forall P : Post.t,
     lookup_post key (posts t) = Some P ->
     unique_shares schema && existsb (is_share key V) (sharedPost t) = false ->
     response w = Some (201, Text "Post shared.")
     /\ sharedPost (db w) = sharedPost t ++ [Share.mk key V]
     /\ posts (db w) = posts t).
Proof.
  intros Hauth key V w. subst key V w. split.
  - intros Hfind.
    rewrite (share_target_missing extractUser schema req t Hauth Hfind). cbn. auto.
  - intros P Hfind Hfree.
    pose proof (lookup_post_id _ _ _ Hfind) as HP.
    rewrite (share_inserts extractUser schema req t Hauth P Hfind)
      by (rewrite HP; exact Hfree).
    rewrite HP. cbn. auto.
Qed.


(** C9.  [sharePostById] does nothing to prevent duplicates.  For every
    request with a usable decoded identity and an existing target post, the
    handler looks the post up and then issues the insert of [(postId, userId)]
    without reading the share store, also when a row for that pair is already
    there: without a uniqueness constraint in the store the pair is stored
    once more, and with one it is the store that refuses it, after which the
    handler answers 500. *)
Theorem sharePostById_always_inserts (req : Req.t) (t : Tables) (P : Post.t) :
  authenticated extractUser req ->
  lookup_post (Params.id (Req.params req)) (posts t) = Some P ->
  let V := caller extractUser req in
  let w := serve (sharePostById extractUser schema) req t in
  (exists answer,
     trace w = [PostsFindByPk (Params.id (Req.params req));
                SharedPostCreate (Post.id P) V;
                answer])
  /\ (unique_shares schema = false ->
      sharedPost (db w) = sharedPost t ++ [Share.mk (Post.id P) V])
  /\ (unique_shares schema = true ->
      existsb (is_share (Post.id P) V) (sharedPost t) = true ->
      response w = Some (500, ErrorBody SequelizeUniqueConstraintError)
      /\ db w = t).
Proof.
  intros Hauth Hfind V w. subst V w.
  destruct (unique_shares schema
            && existsb (is_share (Post.id P) (caller extractUser req)) (sharedPost t))
    eqn:Hdup.
  - rewrite (share_refused extractUser schema req t Hauth P Hfind Hdup). cbn.
    split; [eauto|]. split; [|auto].
    intros Hu. rewrite Hu in Hdup. discriminate.
  - rewrite (share_inserts extractUser schema req t Hauth P Hfind Hdup). cbn.
    split; [eauto|]. split; [auto|].
    intros Hu Hex. rewrite Hu, Hex in Hdup. discriminate.
Qed.


End Claims.

(** ** The statements at the sample data *)

Import Sample.

(** u2 asks to edit and to delete the post of u1. *)
Lemma non_author_is_forbidden_witness :
  authenticated codec u2_on_hello
  /\ lookup_post (Params.id (Req.params u2_on_hello)) (posts tables) = Some hello
  /\ caller codec u2_on_hello <> Post.author hello
  /\ response (serve (modifyPostById codec) u2_on_hello tables)
     = Some (403, Text "Invalid author ID.")
  /\ db (serve (deletePostById codec) u2_on_hello tables) = tables.
Proof.
  assert (Hauth : authenticated codec u2_on_hello) by (split; reflexivity).
  assert (Hfind : lookup_post (Params.id (Req.params u2_on_hello)) (posts tables)
                  = Some hello) by reflexivity.
  assert (Hne : caller codec u2_on_hello <> Post.author hello) by discriminate.
  pose proof (non_author_is_forbidden codec u2_on_hello tables hello Hauth Hfind Hne) as H.
  split; [exact Hauth|]. split; [exact Hfind|]. split; [exact Hne|]. split.
  - exact (proj1 (H _ (or_introl eq_refl))).
  - exact (proj1 (proj2 (H _ (or_intror eq_refl)))).
Defined.

(** u1 replies to a post that does not exist, and u1 writes a top-level post. *)
Lemma createPost_checks_parent_witness :
  authenticated codec u1_replies_to_nothing
  /\ authenticated codec u1_posts
  /\ db (serve (createPost codec strict) u1_replies_to_nothing tables) = tables
  /\ exists created,
       posts (db (serve (createPost codec strict) u1_posts tables)) = [hello; created]
       /\ Post.author created = JNum 1.
Proof.
  assert (Hreply : authenticated codec u1_replies_to_nothing) by (split; reflexivity).
  assert (Hpost : authenticated codec u1_posts) by (split; reflexivity).
  split; [exact Hreply|]. split; [exact Hpost|]. split.
  - exact (proj1 (proj2 (proj1 (createPost_checks_parent codec strict _ tables Hreply)
                           eq_refl eq_refl))).
  - destruct (proj2 (createPost_checks_parent codec strict _ tables Hpost)
                (or_introl eq_refl)) as [created [Hrows [Hauthor _]]].
    exists created. split; [exact Hrows | exact Hauthor].
Defined.

(** u2 shares the post of u1 and takes the share back. *)
Lemma share_then_unshare_round_trip_witness :
  authenticated codec u2_on_hello
  /\ existsb (is_share (Params.id (Req.params u2_on_hello)) (caller codec u2_on_hello))
             (sharedPost tables) = false
  /\ round_trip codec strict u2_on_hello tables.
Proof.
  assert (Hauth : authenticated codec u2_on_hello) by (split; reflexivity).
  split; [exact Hauth|]. split; [reflexivity|].
  exact (share_then_unshare_round_trip codec strict u2_on_hello tables Hauth eq_refl).
Defined.

(** C5, as stated, fails: when u2 already holds a share of the post, sharing
    it again and unsharing it removes the earlier share as well, so the share
    store does not return to its state before the share.  This is so with and
    without a uniqueness constraint in the store. *)
Lemma share_then_unshare_drops_earlier_share :
  authenticated codec u2_on_hello
  /\ ~ round_trip codec permissive u2_on_hello shared_by_u2
  /\ ~ round_trip codec strict u2_on_hello shared_by_u2.
Proof.
  split; [split; reflexivity|].
  split; intros H; vm_compute in H; discriminate H.
Qed.

(** u2 takes back the share of the post of u1. *)
Lemma unsharePostById_deletes_the_pair_witness :
  authenticated codec u2_on_hello
  /\ sharedPost (db (serve (unsharePostById codec) u2_on_hello shared_by_u2)) = []
  /\ existsb is_post_store (trace (serve (unsharePostById codec) u2_on_hello shared_by_u2))
     = false.
Proof.
  assert (Hauth : authenticated codec u2_on_hello) by (split; reflexivity).
  pose proof (unsharePostById_deletes_the_pair codec u2_on_hello shared_by_u2 Hauth)
    as [_ [Hrows [_ [_ Htrace]]]].
  split; [exact Hauth|]. split; [exact Hrows | exact Htrace].
Defined.

(** u1 shares a post of their own. *)
Lemma sharePostById_asks_no_ownership_witness :
  authenticated codec u1_on_hello
  /\ lookup_post (Params.id (Req.params u1_on_hello)) (posts tables) = Some hello
  /\ Post.author hello = caller codec u1_on_hello
  /\ response (serve (sharePostById codec strict) u1_on_hello tables)
     = Some (201, Text "Post shared.")
  /\ sharedPost (db (serve (sharePostById codec strict) u1_on_hello tables))
     = [Share.mk (JNum 1) (JNum 1)].
Proof.
  assert (Hauth : authenticated codec u1_on_hello) by (split; reflexivity).
  assert (Hfind : lookup_post (Params.id (Req.params u1_on_hello)) (posts tables)
                  = Some hello) by reflexivity.
  pose proof (proj2 (sharePostById_asks_no_ownership codec strict u1_on_hello tables Hauth)
                hello Hfind eq_refl) as [Hres [Hrows _]].
  split; [exact Hauth|]. split; [exact Hfind|]. split; [reflexivity|].
  split; [exact Hres | exact Hrows].
Defined.

(** u2 shares the post of u1 a second time. *)
Lemma sharePostById_always_inserts_witness :
  authenticated codec u2_on_hello
  /\ lookup_post (Params.id (Req.params u2_on_hello)) (posts shared_by_u2) = Some hello
  /\ sharedPost (db (serve (sharePostById codec permissive) u2_on_hello shared_by_u2))
     = [Share.mk (JNum 1) (JNum 2); Share.mk (JNum 1) (JNum 2)]
  /\ response (serve (sharePostById codec strict) u2_on_hello shared_by_u2)
     = Some (500, ErrorBody SequelizeUniqueConstraintError).
Proof.
  assert (Hauth : authenticated codec u2_on_hello) by (split; reflexivity).
  assert (Hfind : lookup_post (Params.id (Req.params u2_on_hello)) (posts shared_by_u2)
                  = Some hello) by reflexivity.
  split; [exact Hauth|]. split; [exact Hfind|]. split.
  - exact (proj1 (proj2 (sharePostById_always_inserts codec permissive
                           u2_on_hello shared_by_u2 hello Hauth Hfind)) eq_refl).
  - exact (proj1 (proj2 (proj2 (sharePostById_always_inserts codec strict
                           u2_on_hello shared_by_u2 hello Hauth Hfind)) eq_refl eq_refl)).
Defined.

(** A stranger, whose credential decodes to no identity, posts and shares. *)
Lemma invalid_credential_reaches_the_stores_witness :
  toBoolean (Req.get_Authorization stranger_posts) = true
  /\ toBoolean (caller codec stranger_posts) = false
  /\ toBoolean (Req.get_Authorization stranger_on_hello) = true
  /\ toBoolean (caller codec stranger_on_hello) = false
  /\ (exists rest,
        trace (serve (createPost codec strict) stranger_posts tables) =
        Sent 401 (ErrorMessage "Auth token invalid") :: PostsFindByPk JNull :: rest)
  /\ posts (db (serve (createPost codec permissive) stranger_posts tables)) =
     [hello; Post.mk (JNum 2) (JStr "spam") JUndefined JNull]
  /\ (exists rest,
        trace (serve (sharePostById codec strict) stranger_on_hello tables) =
        Sent 401 (ErrorMessage "Auth token invalid") :: PostsFindByPk (JNum 1) :: rest).
Proof.
  pose proof (invalid_credential_reaches_the_stores codec strict
                stranger_posts tables eq_refl eq_refl) as [_ [Hcreate _]].
  pose proof (invalid_credential_reaches_the_stores codec permissive
                stranger_posts tables eq_refl eq_refl) as [_ [_ [_ [_ Hrow]]]].
  pose proof (invalid_credential_reaches_the_stores codec strict
                stranger_on_hello tables eq_refl eq_refl) as [_ [_ [_ [Hshare _]]]].
  repeat (split; [reflexivity|]).
  split; [exact Hcreate|]. split; [exact (Hrow eq_refl eq_refl) | exact Hshare].
Defined.

(** What the stranger leaves behind where the tables accept a NULL reference;
    the late second response throws, also inside the [catch] block, so the
    promise of the handler is rejected. *)
Example stranger_posts_and_shares :
  serve (createPost codec permissive) stranger_posts tables =
  {| db := {| posts := [hello; Post.mk (JNum 2) (JStr "spam") JUndefined JNull];
              sharedPost := [];
              next_id := 3 |};
     interleaved := [];
     trace := [Sent 401 (ErrorMessage "Auth token invalid");
               PostsFindByPk JNull;
               PostsCreate (JStr "spam") JUndefined JNull] |}
  /\ settled (createPost codec permissive) stranger_posts tables
     = Throw ERR_HTTP_HEADERS_SENT
  /\ serve (sharePostById codec permissive) stranger_on_hello tables =
     {| db := {| posts := [hello];
                 sharedPost := [Share.mk (JNum 1) JUndefined];
                 next_id := 2 |};
        interleaved := [];
        trace := [Sent 401 (ErrorMessage "Auth token invalid");
                  PostsFindByPk (JNum 1);
                  SharedPostCreate (JNum 1) JUndefined] |}.
Proof. repeat split. Qed.

(** The author edits the post while another request of theirs deletes it
    between the lookup and the update. *)
Example edit_races_with_delete :
  serve_among [idle; concurrent_delete (JNum 1)] (modifyPostById codec) u1_on_hello tables =
  {| db := {| posts := []; sharedPost := []; next_id := 2 |};
     interleaved := [];
     trace := [PostsFindByPk (JNum 1);
               PostsUpdate (JStr "edited") (JNum 1) 0;
               Sent 200 (Text "The message has been updated.")] |}.
Proof. reflexivity. Qed.

Lemma modify_ignores_affected_count_witness :
  In (PostsUpdate (JStr "edited") (JNum 1) 0)
     (trace (serve_among [idle; concurrent_delete (JNum 1)]
               (modifyPostById codec) u1_on_hello tables))
  /\ response (serve_among [idle; concurrent_delete (JNum 1)]
                 (modifyPostById codec) u1_on_hello tables)
     = Some (200, Text "The message has been updated.").
Proof.
  assert (Hzero : In (PostsUpdate (JStr "edited") (JNum 1) 0)
                     (trace (serve_among [idle; concurrent_delete (JNum 1)]
                               (modifyPostById codec) u1_on_hello tables)))
    by (right; left; reflexivity).
  split; [exact Hzero|].
  exact (modify_ignores_affected_count codec _ _ _ _ _ Hzero).
Defined.


(** ** The scenarios of the specification *)

(** u1 creates "hi", edits it, and reads it back. *)
Example create_edit_read :
  let t1 := db (serve (createPost codec strict) u1_posts tables) in
  let edit := request (JStr "token-u1") (JNum 2) (JStr "edited") JUndefined in
  let t2 := db (serve (modifyPostById codec) edit t1) in
  response (serve (createPost codec strict) u1_posts tables)
  = Some (201, DtoBody {| dto_of := Post.mk (JNum 2) (JStr "hi") (JNum 1) JNull |})
  /\ response (serve (modifyPostById codec) edit t1)
     = Some (200, Text "The message has been updated.")
  /\ response (serve (getPostById) edit t2)
     = Some (200, DtoBody {| dto_of := Post.mk (JNum 2) (JStr "edited") (JNum 1) JNull |}).
Proof. repeat split. Qed.

(** u2 shares the post of u1, takes the share back, and tries once more. *)
Example share_unshare_unshare :
  let t1 := db (serve (sharePostById codec strict) u2_on_hello tables) in
  let t2 := db (serve (unsharePostById codec) u2_on_hello t1) in
  response (serve (sharePostById codec strict) u2_on_hello tables)
  = Some (201, Text "Post shared.")
  /\ response (serve (unsharePostById codec) u2_on_hello t1)
     = Some (200, Text "The post has been unshared.")
  /\ response (serve (unsharePostById codec) u2_on_hello t2)
     = Some (404, Text "The post was not shared by the user before.").
Proof. repeat split. Qed.

(** The author deletes the post; reading it then yields 404. *)
Example delete_then_read :
  let t1 := db (serve (deletePostById codec) u1_on_hello tables) in
  response (serve (deletePostById codec) u1_on_hello tables)
  = Some (200, Text "The post has been deleted.")
  /\ response (serve getPostById u1_on_hello t1) = Some (404, Text "ID not found.").
Proof. repeat split. Qed.

(** * Further properties of the handlers *)

(** ** Rows, once more *)

Lemma found_is_counted key rows p :
  lookup_post key rows = Some p ->
  Nat.eqb (length (List.filter (has_id key) rows)) 0 = false.
Proof.
  intros H. pose proof (lookup_post_id _ _ _ H) as Hid.
  apply lookup_post_In in H.
  assert (Hin : In p (List.filter (has_id key) rows)).
  { apply List.filter_In. split; [exact H|]. unfold has_id. apply bool_decide_eq_true_2, Hid. }
  destruct (List.filter (has_id key) rows); [destruct Hin | reflexivity].
Qed.

Lemma lookup_post_deleted key rows : lookup_post key (delete_rows key rows) = None.
Proof.
  unfold lookup_post. destruct (loose_eq_null key); [reflexivity|].
  destruct (List.find (has_id key) (delete_rows key rows)) as [p|] eqn:H; [|reflexivity].
  apply List.find_some in H as [Hin Hp]. unfold delete_rows in Hin.
  apply List.filter_In in Hin as [_ Hn]. rewrite Hp in Hn. discriminate Hn.
Qed.

Lemma lookup_post_updated text key rows p :
  lookup_post key rows = Some p ->
  lookup_post key (update_rows text key rows) = Some (set_text text p).
Proof.
  unfold lookup_post. destruct (loose_eq_null key); [discriminate|].
  induction rows as [|q rows IH]; simpl; [discriminate|].
  destruct (has_id key q) eqn:Hq.
  - intros [= ->]. simpl. unfold has_id in *. simpl. rewrite Hq. reflexivity.
  - intros H. rewrite Hq. auto.
Qed.


Lemma delete_rows_updated text key rows :
  delete_rows key (update_rows text key rows) = delete_rows key rows.
Proof.
  unfold delete_rows, update_rows. induction rows as [|q rows IH]; simpl; [reflexivity|].
  destruct (has_id key q) eqn:Hq; simpl.
  - unfold has_id in *. simpl. rewrite Hq. simpl. exact IH.
  - rewrite Hq. simpl. f_equal. exact IH.
Qed.


Lemma lookup_post_appended key rows p :
  lookup_post key rows = None ->
  loose_eq_null key = false ->
  Post.id p = key ->
  lookup_post key (rows ++ [p]) = Some p.
Proof.
  unfold lookup_post. intros H Hk Hp. rewrite Hk in *.
  induction rows as [|q rows IH]; simpl in *.
  - unfold has_id. rewrite bool_decide_eq_true_2 by exact Hp. reflexivity.
  - destruct (has_id key q); [discriminate | auto].
Qed.

Lemma unshared_is_absent postId userId rows :
  existsb (is_share postId userId) (delete_shares postId userId rows) = false.
Proof.
  unfold delete_shares. induction rows as [|s rows IH]; simpl; [reflexivity|].
  destruct (is_share postId userId s) eqn:Hs; simpl; [exact IH|].
  rewrite Hs. exact IH.
Qed.

(** ** The response, whatever the other requests do *)

Lemma first_send (w : World) code body :
  trace w = [] ->
  res_status_send code body w =
  (Ok tt, {| db := db w; interleaved := interleaved w; trace := [Sent code body] |}).
Proof.
  intros H. unfold res_status_send, headersSent, emit. rewrite H. reflexivity.
Qed.

(** ** More paths *)

Section MorePaths.

Variable extractUser : jsval -> User.t.
Variables (req : Req.t) (t : Tables).

Lemma get_runs :
  serve getPostById req t =
  {| db := t; interleaved := [];
     trace := [PostsFindByPk (Params.id (Req.params req));
               match lookup_post (Params.id (Req.params req)) (posts t) with
               | Some post => Sent 200 (DtoBody {| dto_of := post |})
               | None => Sent 404 (Text "ID not found.")
               end] |}.
Proof.
  enter getPostById. rewrite run_findByPk. cbv beta iota.
  destruct (lookup_post (Params.id (Req.params req)) (posts t));
    rewrite run_send by reflexivity; reflexivity.
Qed.

Hypothesis Hauth : authenticated extractUser req.

Lemma modify_by_author P :
  lookup_post (Params.id (Req.params req)) (posts t) = Some P ->
  Post.author P = caller extractUser req ->
  serve (modifyPostById extractUser) req t =
  {| db := {| posts := update_rows (Body.text_content (Req.body req))
                                   (Params.id (Req.params req)) (posts t);
              sharedPost := sharedPost t;
              next_id := next_id t |};
     interleaved := [];
     trace := [PostsFindByPk (Params.id (Req.params req));
               PostsUpdate (Body.text_content (Req.body req)) (Params.id (Req.params req))
                 (length (List.filter (has_id (Params.id (Req.params req))) (posts t)));
               Sent 200 (Text "The message has been updated.")] |}.
Proof.
  destruct Hauth as [Htok Hid]. intros Hfind Hown.
  enter modifyPostById. pass_gate Htok Hid.
  rewrite run_findByPk, Hfind. cbv beta iota.
  unfold strict_eq. rewrite bool_decide_eq_true_2 by exact Hown.
  rewrite run_update. cbn [toBoolean array_ToBoolean]. cbv beta iota.
  rewrite run_send by reflexivity. reflexivity.
Qed.

Lemma delete_by_author P :
  lookup_post (Params.id (Req.params req)) (posts t) = Some P ->
  Post.author P = caller extractUser req ->
  serve (deletePostById extractUser) req t =
  {| db := {| posts := delete_rows (Params.id (Req.params req)) (posts t);
              sharedPost := sharedPost t;
              next_id := next_id t |};
     interleaved := [];
     trace := [PostsFindByPk (Params.id (Req.params req));
               PostsDestroy (Params.id (Req.params req))
                 (length (List.filter (has_id (Params.id (Req.params req))) (posts t)));
               Sent 200 (Text "The post has been deleted.")] |}.
Proof.
  destruct Hauth as [Htok Hid]. intros Hfind Hown.
  enter deletePostById. pass_gate Htok Hid.
  rewrite run_findByPk, Hfind. cbv beta iota.
  unfold strict_eq. rewrite bool_decide_eq_true_2 by exact Hown.
  rewrite run_destroy. rewrite (found_is_counted _ _ _ Hfind). cbn [negb]. cbv beta iota.
  rewrite run_send by reflexivity. reflexivity.
Qed.

Lemma modify_not_found :
  lookup_post (Params.id (Req.params req)) (posts t) = None ->
  serve (modifyPostById extractUser) req t =
  {| db := t; interleaved := [];
     trace := [PostsFindByPk (Params.id (Req.params req));
               Sent 404 (Text "Invalid message ID.")] |}.
Proof.
  destruct Hauth as [Htok Hid]. intros Hfind.
  enter modifyPostById. pass_gate Htok Hid.
  rewrite run_findByPk, Hfind. cbv beta iota.
  rewrite run_send by reflexivity. reflexivity.
Qed.

Lemma delete_not_found :
  lookup_post (Params.id (Req.params req)) (posts t) = None ->
  serve (deletePostById extractUser) req t =
  {| db := t; interleaved := [];
     trace := [PostsFindByPk (Params.id (Req.params req));
               Sent 404 (Text "Invalid post ID.")] |}.
Proof.
  destruct Hauth as [Htok Hid]. intros Hfind.
  enter deletePostById. pass_gate Htok Hid.
  rewrite run_findByPk, Hfind. cbv beta iota.
  rewrite run_send by reflexivity. reflexivity.
Qed.

End MorePaths.

(** ** The credential gate, first step and second step *)

Section MoreGate.

Variable extractUser : jsval -> User.t.
Variable schema : Schema.

(** X1.  On every route but the public read, a request without an
    [Authorization] header, or with an empty one, is answered 400 "Auth token
    not provided" and nothing else happens: the token codec plays no part, no
    statement reaches a store, and the tables are what they were, whatever
    the other requests do meanwhile. *)
Theorem missing_credential_is_refused (r : Route) (req : Req.t) (t : Tables)
    (others : list (Tables -> Tables)) :
  toBoolean (Req.get_Authorization req) = false ->
  r <> GET_posts_id ->
  serve_among others (router extractUser schema r) req t =
  {| db := t; interleaved := others;
     trace := [Sent 400 (ErrorMessage "Auth token not provided")] |}.
Proof.
  intros Htok Hr.
  destruct r; try contradiction;
    unfold serve_among, start, router, createPost, modifyPostById, deletePostById,
      sharePostById, unsharePostById, try_catch;
    rewrite Htok; cbn [negb]; rewrite first_send by reflexivity; reflexivity.
Qed.

(** X2.  [modifyPostById], [deletePostById] and [unsharePostById] stop at a
    credential that decodes to an identity without a usable [id] (absent,
    [null], zero or the empty string): the answer is 401 "Auth token invalid",
    no statement reaches a store, and the tables are what they were, whatever
    the other requests do meanwhile. *)
Theorem invalid_credential_is_refused (r : Route) (req : Req.t) (t : Tables)
    (others : list (Tables -> Tables)) :
  toBoolean (Req.get_Authorization req) = true ->
  toBoolean (caller extractUser req) = false ->
  r = PUT_posts_id \/ r = DELETE_posts_id \/ r = DELETE_posts_id_share ->
  serve_among others (router extractUser schema r) req t =
  {| db := t; interleaved := others;
     trace := [Sent 401 (ErrorMessage "Auth token invalid")] |}.
Proof.
  intros Htok Hid Hr. unfold caller in Hid.
  destruct Hr as [-> | [-> | ->]];
    unfold serve_among, start, router, modifyPostById, deletePostById,
      unsharePostById, try_catch;
    rewrite Htok, Hid; cbn [negb]; rewrite first_send by reflexivity; reflexivity.
Qed.

(** X3.  [getPostById] is public and read-only.  Its outcome depends on the
    path identifier and on the post store alone, not on the credential or the
    body of the request: 200 with the DTO of the row the identifier resolves
    to, or 404 "ID not found." when it resolves to none; on both paths it
    writes to no store and leaves the tables as they were. *)
Theorem getPostById_is_a_public_read (req : Req.t) (t : Tables)
    (header : jsval) (body : Body.t) :
  let w := serve getPostById req t in
  response w =
    match lookup_post (Params.id (Req.params req)) (posts t) with
    | Some post => Some (200, DtoBody {| dto_of := post |})
    | None => Some (404, Text "ID not found.")
    end
  /\ db w = t
  /\ existsb is_post_write (trace w) = false
  /\ existsb is_share_store (trace w) = false
  /\ serve getPostById (Req.mk header (Req.params req) body) t = w.
Proof.
  intros w. subst w. rewrite !get_runs. cbn [db trace Req.params].
  destruct (lookup_post (Params.id (Req.params req)) (posts t)); repeat split.
Qed.

(** X4.  When the author of a post edits it, [modifyPostById] answers 200 and
    the edit is visible: the rows with the path identifier now carry the new
    text, the row a lookup finds is the old one with the text replaced, a read
    of the post returns it, the rows with another identifier and the share
    store are as they were. *)
Theorem author_edits_post (req : Req.t) (t : Tables) (P : Post.t) :
  authenticated extractUser req ->
  lookup_post (Params.id (Req.params req)) (posts t) = Some P ->
  Post.author P = caller extractUser req ->
  let key := Params.id (Req.params req) in
  let text := Body.text_content (Req.body req) in
  let w := serve (modifyPostById extractUser) req t in
  response w = Some (200, Text "The message has been updated.")
  /\ (forall p, In p (posts (db w)) -> Post.id p = key -> Post.text_content p = text)
  /\ lookup_post key (posts (db w)) = Some (set_text text P)
  /\ response (serve getPostById req (db w))
     = Some (200, DtoBody {| dto_of := set_text text P |})
  /\ delete_rows key (posts (db w)) = delete_rows key (posts t)
  /\ sharedPost (db w) = sharedPost t.
Proof.
  intros Hauth Hfind Hown key text w. subst key text w.
  rewrite (modify_by_author extractUser req t Hauth P Hfind Hown).
  cbn [db posts sharedPost]. split; [reflexivity|]. split.
  - intros p Hin Hp. unfold update_rows in Hin. apply List.in_map_iff in Hin as [q [Hq _]].
    subst p. destruct (has_id (Params.id (Req.params req)) q) eqn:Hhas; [reflexivity|].
    unfold has_id in Hhas. apply bool_decide_eq_false in Hhas. contradiction.
  - split; [apply lookup_post_updated, Hfind|]. split.
    + rewrite get_runs. cbn [db posts]. rewrite (lookup_post_updated _ _ _ _ Hfind).
      reflexivity.
    + split; [apply delete_rows_updated | reflexivity].
Qed.

(** X5.  When the author of a post deletes it, [deletePostById] answers 200
    and the post is gone: no row with the path identifier is left, a read of
    the post is answered 404, so is a second delete, and the rows with another
    identifier and the share store are as they were. *)
Theorem author_deletes_post (req : Req.t) (t : Tables) (P : Post.t) :
  authenticated extractUser req ->
  lookup_post (Params.id (Req.params req)) (posts t) = Some P ->
  Post.author P = caller extractUser req ->
  let key := Params.id (Req.params req) in
  let w := serve (deletePostById extractUser) req t in
  response w = Some (200, Text "The post has been deleted.")
  /\ (forall p, In p (posts (db w)) <-> In p (posts t) /\ Post.id p <> key)
  /\ response (serve getPostById req (db w)) = Some (404, Text "ID not found.")
  /\ response (serve (deletePostById extractUser) req (db w))
     = Some (404, Text "Invalid post ID.")
  /\ db (serve (deletePostById extractUser) req (db w)) = db w
  /\ sharedPost (db w) = sharedPost t.
Proof.
  intros Hauth Hfind Hown key w. subst key w.
  rewrite (delete_by_author extractUser req t Hauth P Hfind Hown).
  cbn [db posts sharedPost]. split; [reflexivity|].
  split; [intros p; apply In_delete_rows|]. split.
  - rewrite get_runs. cbn [db posts]. rewrite lookup_post_deleted. reflexivity.
  - rewrite (delete_not_found extractUser req _ Hauth)
      by (cbn [posts]; apply lookup_post_deleted).
    repeat split.
Qed.

(** X6.  Existence is checked before ownership: for an authenticated caller
    and a path identifier that resolves to no post, [modifyPostById] answers
    404 "Invalid message ID." and [deletePostById] 404 "Invalid post ID.";
    neither issues a write, and the tables are what they were. *)
Theorem missing_post_is_not_found (req : Req.t) (t : Tables) :
  authenticated extractUser req ->
  lookup_post (Params.id (Req.params req)) (posts t) = None ->
  serve (modifyPostById extractUser) req t =
    {| db := t; interleaved := [];
       trace := [PostsFindByPk (Params.id (Req.params req));
                 Sent 404 (Text "Invalid message ID.")] |}
  /\ serve (deletePostById extractUser) req t =
    {| db := t; interleaved := [];
       trace := [PostsFindByPk (Params.id (Req.params req));
                 Sent 404 (Text "Invalid post ID.")] |}.
Proof.
  intros Hauth Hfind. split.
  - apply modify_not_found; assumption.
  - apply delete_not_found; assumption.
Qed.

End MoreGate.

(** A request without the header and a request with an empty header. *)
Lemma missing_credential_is_refused_witness :
  toBoolean (Req.get_Authorization Cases.no_header_on_hello) = false
  /\ toBoolean (Req.get_Authorization Cases.empty_header_on_hello) = false
  /\ response (serve (deletePostById codec) Cases.no_header_on_hello tables)
     = Some (400, ErrorMessage "Auth token not provided")
  /\ db (serve (sharePostById codec strict) Cases.empty_header_on_hello tables) = tables.
Proof.
  split; [reflexivity|]. split; [reflexivity|]. split.
  - exact (f_equal response
             (missing_credential_is_refused codec strict DELETE_posts_id
                Cases.no_header_on_hello tables [] eq_refl ltac:(discriminate))).
  - exact (f_equal db
             (missing_credential_is_refused codec strict POST_posts_id_share
                Cases.empty_header_on_hello tables [] eq_refl ltac:(discriminate))).
Defined.

(** The user whose identifier is zero cannot delete anything. *)
Lemma invalid_credential_is_refused_witness :
  toBoolean (Req.get_Authorization Cases.u0_on_hello) = true
  /\ toBoolean (caller Cases.zero_codec Cases.u0_on_hello) = false
  /\ caller Cases.zero_codec Cases.u0_on_hello = JNum 0
  /\ response (serve (deletePostById Cases.zero_codec) Cases.u0_on_hello tables)
     = Some (401, ErrorMessage "Auth token invalid").
Proof.
  split; [reflexivity|]. split; [reflexivity|]. split; [reflexivity|].
  exact (f_equal response
           (invalid_credential_is_refused Cases.zero_codec strict DELETE_posts_id
              Cases.u0_on_hello tables [] eq_refl eq_refl (or_intror (or_introl eq_refl)))).
Defined.

(** u1 edits the post "hello". *)
Lemma author_edits_post_witness :
  authenticated codec u1_on_hello
  /\ lookup_post (Params.id (Req.params u1_on_hello)) (posts tables) = Some hello
  /\ Post.author hello = caller codec u1_on_hello
  /\ response (serve getPostById u1_on_hello
                 (db (serve (modifyPostById codec) u1_on_hello tables)))
     = Some (200, DtoBody {| dto_of := Post.mk (JNum 1) (JStr "edited") (JNum 1) JNull |}).
Proof.
  assert (Hauth : authenticated codec u1_on_hello) by (split; reflexivity).
  split; [exact Hauth|]. split; [reflexivity|]. split; [reflexivity|].
  exact (proj1 (proj2 (proj2 (proj2
           (author_edits_post codec u1_on_hello tables hello Hauth eq_refl eq_refl))))).
Defined.

(** u1 deletes the post "hello". *)
Lemma author_deletes_post_witness :
  authenticated codec u1_on_hello
  /\ lookup_post (Params.id (Req.params u1_on_hello)) (posts tables) = Some hello
  /\ Post.author hello = caller codec u1_on_hello
  /\ response (serve (deletePostById codec) u1_on_hello tables)
     = Some (200, Text "The post has been deleted.")
  /\ response (serve getPostById u1_on_hello
                 (db (serve (deletePostById codec) u1_on_hello tables)))
     = Some (404, Text "ID not found.").
Proof.
  assert (Hauth : authenticated codec u1_on_hello) by (split; reflexivity).
  pose proof (author_deletes_post codec u1_on_hello tables hello Hauth eq_refl eq_refl)
    as [Hans [_ [Hread _]]].
  split; [exact Hauth|]. split; [reflexivity|]. split; [reflexivity|].
  split; [exact Hans | exact Hread].
Defined.

(** u1 edits a post that does not exist. *)
Lemma missing_post_is_not_found_witness :
  authenticated codec Cases.u1_on_nothing
  /\ lookup_post (Params.id (Req.params Cases.u1_on_nothing)) (posts tables) = None
  /\ response (serve (modifyPostById codec) Cases.u1_on_nothing tables)
     = Some (404, Text "Invalid message ID.").
Proof.
  assert (Hauth : authenticated codec Cases.u1_on_nothing) by (split; reflexivity).
  split; [exact Hauth|]. split; [reflexivity|].
  exact (f_equal response
           (proj1 (missing_post_is_not_found codec Cases.u1_on_nothing tables Hauth eq_refl))).
Defined.

(** ** Running a handler among other requests *)

Ltac among E :=
  unfold serve_among, start, router, createPost, getPostById, modifyPostById,
    deletePostById, sharePostById, unsharePostById, try_catch, console_log,
    convertToPostDto, posts_findByPk, posts_create, posts_update, posts_destroy,
    sharedPost_create, sharedPost_destroy, res_status_send, headersSent, emit,
    await, query, mbind, M_bind, mret, M_ret in E;
  repeat (cbn -[lookup_post strict_eq update_rows delete_rows delete_shares has_id
                is_share toBoolean loose_eq_null Z.add] in E;
          match type of E with
          | context [if ?b then _ else _] => destruct b eqn:?
          | context [match ?o with Some _ => _ | None => _ end] => destruct o eqn:?
          | context [match ?l with [] => _ | _ :: _ => _ end] => destruct l
          end);
  cbn -[lookup_post strict_eq update_rows delete_rows delete_shares has_id
        is_share toBoolean loose_eq_null Z.add] in E;
  inversion E; subst; clear E.

Section Among.

Variable extractUser : jsval -> User.t.
Variable schema : Schema.

(** X7.  [deletePostById] answers by the number of rows its delete reports,
    whatever the other requests do meanwhile: 200 "The post has been deleted."
    when at least one row went, and 500 "Failed to destroy the post." when
    none did, which happens when the post is removed between the lookup and
    the delete. *)
Theorem delete_answers_by_the_count (others : list (Tables -> Tables))
    (req : Req.t) (t : Tables) (key : jsval) (n : nat) :
  In (PostsDestroy key n)
     (trace (serve_among others (deletePostById extractUser) req t)) ->
  response (serve_among others (deletePostById extractUser) req t) =
  Some (if Nat.eqb n 0
        then (500, Text "Failed to destroy the post.")
        else (200, Text "The post has been deleted.")).
Proof.
  destruct (serve_among others (deletePostById extractUser) req t) as [d i tr] eqn:E.
  among E; cbn [trace response first_sent]; intros H; simpl in H.
  all: repeat (destruct H as [H | H]; [try discriminate H|]);
       try (match type of H with False => destruct H end).
  all: injection H as <- <-.
  all: match goal with
       | Hc : negb (Nat.eqb ?c 0) = _ |- _ =>
           destruct (Nat.eqb c 0); try discriminate Hc; reflexivity
       end.
Qed.


End Among.

(** The author deletes the post while another request of theirs has just
    deleted it. *)
Lemma delete_answers_by_the_count_witness :
  In (PostsDestroy (JNum 1) 0)
     (trace (serve_among [idle; concurrent_delete (JNum 1)]
               (deletePostById codec) u1_on_hello tables))
  /\ response (serve_among [idle; concurrent_delete (JNum 1)]
                 (deletePostById codec) u1_on_hello tables)
     = Some (500, Text "Failed to destroy the post.").
Proof.
  assert (Hzero : In (PostsDestroy (JNum 1) 0)
                     (trace (serve_among [idle; concurrent_delete (JNum 1)]
                               (deletePostById codec) u1_on_hello tables)))
    by (right; left; reflexivity).
  split; [exact Hzero|].
  exact (delete_answers_by_the_count codec _ _ _ _ _ Hzero).
Defined.

(** ** What a request leaves behind *)

Section Outcomes.

Variable extractUser : jsval -> User.t.
Variable schema : Schema.



(** X15.  Only the author writes: whenever [modifyPostById] or
    [deletePostById] changes the tables at all, the request carried a
    credential with a usable identity and that identity is the author of the
    post the path identifier resolves to. *)
Theorem only_the_author_writes (r : Route) (req : Req.t) (t : Tables) :
  r = PUT_posts_id \/ r = DELETE_posts_id ->
  db (serve (router extractUser schema r) req t) <> t ->
  authenticated extractUser req
  /\ exists P, lookup_post (Params.id (Req.params req)) (posts t) = Some P
               /\ Post.author P = caller extractUser req.
Proof.
  intros Hr Hchanged. unfold authenticated, caller.
  destruct (serve (router extractUser schema r) req t) as [d i tr] eqn:E.
  unfold router in E. cbn [db] in Hchanged.
  destruct Hr as [-> | ->].
  - run E modifyPostById; try (contradiction Hchanged; reflexivity).
    all: repeat match goal with
                | H : negb _ = false |- _ => apply negb_false_iff in H
                | H : strict_eq _ _ = true |- _ => apply bool_decide_eq_true_1 in H
                end; eauto.
  - run E deletePostById; try (contradiction Hchanged; reflexivity).
    all: repeat match goal with
                | H : negb _ = false |- _ => apply negb_false_iff in H
                | H : strict_eq _ _ = true |- _ => apply bool_decide_eq_true_1 in H
                end; eauto.
Qed.

End Outcomes.

(** u1 edits the post "hello": the tables change, and u1 is its author. *)
Lemma only_the_author_writes_witness :
  db (serve (router codec strict PUT_posts_id) u1_on_hello tables) <> tables
  /\ authenticated codec u1_on_hello
  /\ exists P, lookup_post (Params.id (Req.params u1_on_hello)) (posts tables) = Some P
               /\ Post.author P = caller codec u1_on_hello.
Proof.
  assert (Hchanged : db (serve (router codec strict PUT_posts_id) u1_on_hello tables)
                     <> tables) by discriminate.
  split; [exact Hchanged|].
  exact (only_the_author_writes codec strict PUT_posts_id u1_on_hello tables
           (or_introl eq_refl) Hchanged).
Defined.

(** ** How the operations compose *)

Section Composition.

Variable extractUser : jsval -> User.t.
Variable schema : Schema.

(** X11.  Unsharing is idempotent on the share store: after an authenticated
    caller has unshared a post, whatever the share store held, the same
    request once more is answered 404 "The post was not shared by the user
    before." and changes nothing. *)
Theorem unshare_twice (req : Req.t) (t : Tables) :
  authenticated extractUser req ->
  let w1 := serve (unsharePostById extractUser) req t in
  let w2 := serve (unsharePostById extractUser) req (db w1) in
  response w2 = Some (404, Text "The post was not shared by the user before.")
  /\ db w2 = db w1.
Proof.
  intros Hauth w1 w2. subst w1 w2.
  rewrite !(unshare_runs extractUser req _ Hauth). cbn [db sharedPost posts next_id].
  rewrite (no_matching_rows _ _ _ (unshared_is_absent _ _ _)).
  rewrite (delete_shares_absent _ _ _ (unshared_is_absent _ _ _)).
  split; reflexivity.
Qed.

(** X12.  A post that has been created can be read by anyone: when the next
    identifier of the sequence is not taken, the row that an authenticated
    [createPost] inserts is what [getPostById] returns for that identifier,
    with the text and the parent submitted and the caller as its author, and
    it is the DTO that [createPost] itself answered with. *)
Theorem created_post_can_be_read (req read : Req.t) (t : Tables) :
  authenticated extractUser req ->
  loose_eq_null (Body.parent (Req.body req)) = true
  \/ (exists P, lookup_post (Body.parent (Req.body req)) (posts t) = Some P) ->
  lookup_post (JNum (next_id t)) (posts t) = None ->
  Params.id (Req.params read) = JNum (next_id t) ->
  let w := serve (createPost extractUser schema) req t in
  response (serve getPostById read (db w)) =
    Some (200, DtoBody {| dto_of := Post.mk (JNum (next_id t))
                                            (Body.text_content (Req.body req))
                                            (caller extractUser req)
                                            (Body.parent (Req.body req)) |})
  /\ response (serve getPostById read (db w)) =
     match response w with
     | Some (_, body) => Some (200, body)
     | None => None
     end.
Proof.
  intros Hauth Hparent Hfresh Hread w. subst w.
  rewrite (create_inserts extractUser schema req t Hauth Hparent _ eq_refl).
  rewrite get_runs. cbn [db posts]. rewrite Hread.
  rewrite lookup_post_appended; [| exact Hfresh | reflexivity | reflexivity].
  split; reflexivity.
Qed.


Lemma parents_resolve_spec rows :
  parents_resolve rows = true <-> forall p, In p rows -> parent_resolves rows p = true.
Proof. unfold parents_resolve. apply forallb_forall. Qed.


(** X14.  The delete does not keep the reply invariant: when the author
    deletes a post that has a reply, the reply stays in the post store with
    its [parent] as it was, and that parent now resolves to nothing. *)
Theorem delete_orphans_replies (req : Req.t) (t : Tables) (P R : Post.t) :
  authenticated extractUser req ->
  lookup_post (Params.id (Req.params req)) (posts t) = Some P ->
  Post.author P = caller extractUser req ->
  In R (posts t) ->
  Post.id R <> Params.id (Req.params req) ->
  Post.parent R = Params.id (Req.params req) ->
  let w := serve (deletePostById extractUser) req t in
  In R (posts (db w))
  /\ lookup_post (Post.parent R) (posts (db w)) = None
  /\ parents_resolve (posts (db w)) = false.
Proof.
  intros Hauth Hfind Hown HR Hid Hparent w. subst w.
  rewrite (delete_by_author extractUser req t Hauth P Hfind Hown). cbn [db posts].
  assert (Hin : In R (delete_rows (Params.id (Req.params req)) (posts t)))
    by (apply In_delete_rows; auto).
  assert (Hgone : lookup_post (Post.parent R)
                    (delete_rows (Params.id (Req.params req)) (posts t)) = None)
    by (rewrite Hparent; apply lookup_post_deleted).
  split; [exact Hin|]. split; [exact Hgone|].
  destruct (parents_resolve _) eqn:Hinv; [|reflexivity].
  rewrite parents_resolve_spec in Hinv. specialize (Hinv R Hin).
  unfold parent_resolves in Hinv. rewrite Hgone, Hparent in Hinv.
  unfold lookup_post in Hfind.
  destruct (loose_eq_null (Params.id (Req.params req))); discriminate.
Qed.

End Composition.

(** u2 takes back a share twice. *)
Lemma unshare_twice_witness :
  authenticated codec u2_on_hello
  /\ response (serve (unsharePostById codec) u2_on_hello
                 (db (serve (unsharePostById codec) u2_on_hello shared_by_u2)))
     = Some (404, Text "The post was not shared by the user before.").
Proof.
  assert (Hauth : authenticated codec u2_on_hello) by (split; reflexivity).
  split; [exact Hauth|].
  exact (proj1 (unshare_twice codec u2_on_hello shared_by_u2 Hauth)).
Defined.

(** u1 writes "hi", and a caller without a credential reads post 2. *)
Lemma created_post_can_be_read_witness :
  authenticated codec u1_posts
  /\ loose_eq_null (Body.parent (Req.body u1_posts)) = true
  /\ lookup_post (JNum (next_id tables)) (posts tables) = None
  /\ Params.id (Req.params Cases.anyone_reads_new) = JNum (next_id tables)
  /\ response (serve getPostById Cases.anyone_reads_new
                 (db (serve (createPost codec strict) u1_posts tables)))
     = Some (200, DtoBody {| dto_of := Post.mk (JNum 2) (JStr "hi") (JNum 1) JNull |}).
Proof.
  assert (Hauth : authenticated codec u1_posts) by (split; reflexivity).
  split; [exact Hauth|]. repeat (split; [reflexivity|]).
  exact (proj1 (created_post_can_be_read codec strict u1_posts Cases.anyone_reads_new
                  tables Hauth (or_introl eq_refl) eq_refl eq_refl)).
Defined.


(** u1 deletes "hello", to which u2 has replied. *)
Lemma delete_orphans_replies_witness :
  authenticated codec u1_on_hello
  /\ lookup_post (Params.id (Req.params u1_on_hello)) (posts Cases.with_reply) = Some hello
  /\ Post.author hello = caller codec u1_on_hello
  /\ In Cases.reply (posts Cases.with_reply)
  /\ Post.id Cases.reply <> Params.id (Req.params u1_on_hello)
  /\ Post.parent Cases.reply = Params.id (Req.params u1_on_hello)
  /\ parents_resolve (posts Cases.with_reply) = true
  /\ parents_resolve
       (posts (db (serve (deletePostById codec) u1_on_hello Cases.with_reply))) = false.
Proof.
  assert (Hauth : authenticated codec u1_on_hello) by (split; reflexivity).
  assert (Hin : In Cases.reply (posts Cases.with_reply)) by (right; left; reflexivity).
  assert (Hid : Post.id Cases.reply <> Params.id (Req.params u1_on_hello)) by discriminate.
  split; [exact Hauth|]. split; [reflexivity|]. split; [reflexivity|].
  split; [exact Hin|]. split; [exact Hid|]. split; [reflexivity|]. split; [reflexivity|].
  exact (proj2 (proj2 (delete_orphans_replies codec u1_on_hello Cases.with_reply
                         hello Cases.reply Hauth eq_refl eq_refl Hin Hid eq_refl))).
Defined.

(** ** Branches that are never taken *)

Section Unreachable.

Variable extractUser : jsval -> User.t.
Variable schema : Schema.

(** X16.  Two of the failure answers are never sent: on no route, for no
    request and whatever the other requests do meanwhile does a handler answer
    "Failed to update the post." or "Failed to share the post.", because the
    values these branches test, the array of the update and the created share,
    are objects and hence truthy. *)
Theorem two_failure_answers_are_never_sent (others : list (Tables -> Tables))
    (r : Route) (req : Req.t) (t : Tables) (code : Z) :
  ~ In (Sent code (Text "Failed to update the post."))
       (trace (serve_among others (router extractUser schema r) req t))
  /\ ~ In (Sent code (Text "Failed to share the post."))
          (trace (serve_among others (router extractUser schema r) req t)).
Proof.
  destruct (serve_among others (router extractUser schema r) req t) as [d i tr] eqn:E.
  destruct r; among E; cbn [trace].
  all: try match goal with
           | Hc : toBoolean _ = false |- _ => cbn in Hc; discriminate Hc
           end.
  all: split; intros H; simpl in H;
       repeat (destruct H as [H | H]; [discriminate H|]); destruct H.
Qed.

End Unreachable.
